(** * Qiita: parameter sets (qiita_db/parameters.py) and the raw-data
      editor tab (qiita_pet/uimodules/raw_data_tab.py)

    A shallow embedding of the two Python modules.  The database the
    parameter classes talk to is explicit state: every method is a
    computation that takes the database, may raise a Python exception, and
    hands the database back.  Python dicts and sets are finite maps and
    finite sets; lists are lists. *)

From stdpp Require Import gmap strings list fin_maps sorting pretty.

Local Open Scope string_scope.
Local Open Scope list_scope.

#[local] Set Warnings "-clear-no-such-hyp".

(** ** Python values, exceptions and the computation monad *)

Module Python.

(** The scalars that travel between Python and the parameter tables.
    Floating-point columns are outside this model, and so is SQL NULL: the
    parameter tables are filled by [create] only, which supplies every
    column. *)
Inductive value :=
  | VBool (b : bool)
  | VInt (z : Z)
  | VStr (s : string).

#[global] Instance value_eq_dec : EqDecision value.
Proof. solve_decision. Defined.

(** [str(v)], which is what ["%s" % v] prints. *)
Definition str (v : value) : string :=
  match v with
  | VBool true => "True"
  | VBool false => "False"
  | VInt z => pretty z
  | VStr s => s
  end.

(** Truth value of [v] in an [if]. *)
Definition truthy (v : value) : bool :=
  match v with
  | VBool b => b
  | VInt z => negb (z =? 0)%Z
  | VStr s => negb (String.eqb s "")
  end.

(** [sep.join(l)] *)
Fixpoint join (sep : string) (l : list string) : string :=
  match l with
  | [] => ""
  | [s] => s
  | s :: rest => s +:+ sep +:+ join sep rest
  end.

Definition TAB : string := String (Ascii.ascii_of_nat 9) "".
Definition NL : string := String (Ascii.ascii_of_nat 10) "".

(** The message of the [ValueError]s raised in parameters.py.  The two
    column messages join a Python set, whose iteration order is not fixed;
    the model keeps the set of names the message lists. *)
Inductive value_error :=
  | MissingColumns (cols : gset string)
  | ExtraColumns (cols : gset string)
  | NotInList.

Inductive exn :=
  | KeyError (key : string)
  | ValueError (what : value_error)
  | TypeError
  | QiitaDBDuplicateError (cls : string) (values : gmap string value)
  | QiitaDBUnknownIDError (id : value) (table : string)
  | DatabaseError (what : string).

Inductive result (A : Type) :=
  | Return (a : A)
  | Raise (e : exn).
Arguments Return {A} a.
Arguments Raise {A} e.

(** A computation over a store [S]: it ends in a value or an exception,
    and in either case in a store. *)
Definition M (S A : Type) : Type := S → result A * S.

Definition ret {S A} (a : A) : M S A := λ s, (Return a, s).
Definition raise {S A} (e : exn) : M S A := λ s, (Raise e, s).
Definition bind {S A B} (m : M S A) (k : A → M S B) : M S B :=
  λ s, match m s with
       | (Return a, s') => k a s'
       | (Raise e, s') => (Raise e, s')
       end.

(** [s.remove(x)] on a set *)
Definition set_remove {S} (x : string) (s : gset string) : M S (gset string) :=
  if decide (x ∈ s) then ret (s ∖ {[x]}) else raise (KeyError x).

(** [l.remove(x)] on a list: drops the first occurrence *)
Fixpoint list_remove_first {A} `{EqDecision A} (x : A) (l : list A)
  : option (list A) :=
  match l with
  | [] => None
  | y :: l' =>
      if decide (x = y) then Some l'
      else match list_remove_first x l' with
           | Some r => Some (y :: r)
           | None => None
           end
  end.

Definition list_remove {S A} `{EqDecision A} (x : A) (l : list A)
  : M S (list A) :=
  match list_remove_first x l with
  | Some r => ret r
  | None => raise (ValueError NotInList)
  end.

(** [d[k]] *)
Definition getitem {S} (d : gmap string value) (k : string) : M S value :=
  match d !! k with
  | Some v => ret v
  | None => raise (KeyError k)
  end.

(** [del d[k]] *)
Definition delitem {S} (k : string) (d : gmap string value)
  : M S (gmap string value) :=
  match d !! k with
  | Some _ => ret (delete k d)
  | None => raise (KeyError k)
  end.

(** [sorted] of a list of strings, and of a list of pairs whose second
    components are strings: Python compares pairs component by component. *)
Definition pair_le (x y : string * string) : Prop :=
  if decide (x.1 = y.1) then String.le x.2 y.2 else String.le x.1 y.1.

#[global] Instance pair_le_dec : RelDecision pair_le.
Proof. intros x y. unfold pair_le. case_decide; apply _. Defined.

(** The order [sorted] uses on the items of a dict.  The keys of a dict are
    distinct, so comparing two items is decided by their keys. *)
Definition key_le {V} (x y : string * V) : Prop := String.le x.1 y.1.

#[global] Instance key_le_dec {V} : RelDecision (@key_le V).
Proof. intros x y. unfold key_le. apply _. Defined.

Definition sorted (l : list string) : list string := merge_sort String.le l.
Definition sorted_pairs (l : list (string * string)) : list (string * string) :=
  merge_sort pair_le l.
Definition sorted_items {V} (l : list (string * V)) : list (string * V) :=
  merge_sort key_le l.

End Python.

Export Python.

Notation "'let!' x ':=' m 'in' k" := (bind m (λ x, k))
  (at level 10, x name, m at level 100, k at level 200).

(** ** The database behind [SQLConnectionHandler] *)

Module SQL.

(** A table of the [qiita] schema: its columns with their SQL types, as the
    catalogue lists them, the column that holds the surrogate key, and its
    rows.  A row is what [SELECT *] hands to Python: column name to value. *)
Record table := Table {
  t_cols : list (string * string);
  t_key : string;
  t_rows : list (gmap string value)
}.

Abbreviation db := (gmap string table).

Definition col_names (t : table) : gset string := list_to_set (t_cols t).*1.

(** Modelled from the spec: [get_table_cols] and [get_table_cols_w_type] of
    qiita_db.util are not among the sources.  They read "the table's
    expected schema": the column names of the table, and the pairs of a
    column name and its type.  A table the catalogue does not know has no
    columns. *)
Definition get_table_cols_w_type (tbl : string) : M db (list (string * string)) :=
  λ d, (Return (match d !! tbl with Some t => t_cols t | None => [] end), d).

Definition get_table_cols (tbl : string) : M db (list string) :=
  let! cols := get_table_cols_w_type tbl in ret cols.*1.

(** [conds] holds of row [r]: the conjunction [c1 = v1 AND ... AND cn = vn]. *)
Definition matches (conds r : gmap string value) : bool :=
  bool_decide (conds ⊆ r).

(** Modelled from the spec: [SQLConnectionHandler.execute_fetchone] is not
    among the sources; each operation "issues one statement and returns
    synchronously", and failures "propagate unmodified from the database
    driver".  One definition per statement text the sources build.

    [SELECT EXISTS(SELECT * FROM qiita.<tbl> WHERE c1 = %s AND ... AND cn = %s)],
    first field of the row fetched.  An empty condition list leaves [WHERE]
    without a condition, which the database refuses. *)
Definition select_exists (tbl : string) (conds : gmap string value) : M db bool :=
  λ d, match d !! tbl with
       | None => (Raise (DatabaseError "undefined table"), d)
       | Some t =>
           if decide (conds = ∅) then (Raise (DatabaseError "syntax error"), d)
           else if decide (dom conds ⊆ col_names t)
           then (Return (existsb (matches conds) (t_rows t)), d)
           else (Raise (DatabaseError "undefined column"), d)
       end.

(** [SELECT * FROM qiita.<tbl> WHERE <col>=%s], the first row fetched, or
    [None]. *)
Definition select_row (tbl col : string) (v : value)
  : M db (option (gmap string value)) :=
  λ d, match d !! tbl with
       | None => (Raise (DatabaseError "undefined table"), d)
       | Some t =>
           if decide (col ∈ col_names t)
           then (Return (find (matches {[col := v]}) (t_rows t)), d)
           else (Raise (DatabaseError "undefined column"), d)
       end.

(** [SELECT <sel> FROM qiita.<tbl> WHERE <col>=%s], the one-field row
    fetched, or [None]. *)
Definition select_field (tbl sel col : string) (v : value)
  : M db (option value) :=
  λ d, match d !! tbl with
       | None => (Raise (DatabaseError "undefined table"), d)
       | Some t =>
           if decide (col ∈ col_names t ∧ sel ∈ col_names t)
           then (Return (r ← find (matches {[col := v]}) (t_rows t); r !! sel), d)
           else (Raise (DatabaseError "undefined column"), d)
       end.

(** The keys in use, and the key the database draws for a row inserted
    without one: the surrogate key is a serial, and the model draws the
    successor of the largest key in the table, which no row holds. *)
Definition key_of (t : table) (r : gmap string value) : Z :=
  match r !! t_key t with
  | Some (VInt k) => k
  | _ => 0%Z
  end.

Definition fresh_key (t : table) : Z :=
  (1 + foldr Z.max 0 (key_of t <$> t_rows t))%Z.

(** [INSERT INTO qiita.<tbl> (c1, ..., cn) VALUES (%s, ..., %s) RETURNING <ret>],
    first field of the row fetched.  The named columns take the given
    values, the key column its next serial value when it is not named; any
    other column left out has nothing to take and the database refuses the
    row, as it refuses a key that a row of the table already holds. *)
Definition insert_returning (tbl : string) (assign : gmap string value)
    (ret_col : string) : M db value :=
  λ d, match d !! tbl with
       | None => (Raise (DatabaseError "undefined table"), d)
       | Some t =>
           if decide (dom assign ⊆ col_names t ∧ ret_col ∈ col_names t) then
             if decide (col_names t ∖ dom assign ⊆ {[t_key t]}) then
               let r := match assign !! t_key t with
                        | Some _ => assign
                        | None => <[t_key t := VInt (fresh_key t)]> assign
                        end in
               match r !! t_key t, r !! ret_col with
               | Some k, Some v =>
                   if existsb (matches {[t_key t := k]}) (t_rows t)
                   then (Raise (DatabaseError "duplicate key"), d)
                   else (Return v,
                         <[tbl := Table (t_cols t) (t_key t) (t_rows t ++ [r])]> d)
               | _, _ => (Raise (DatabaseError "null value"), d)
               end
             else (Raise (DatabaseError "null value"), d)
           else (Raise (DatabaseError "undefined column"), d)
       end.

End SQL.

Export SQL.

(** ** qiita_db/parameters.py *)

Module QiitaParameters.

(** A subclass of [BaseParameters]: its name and its three class
    attributes. *)
Record param_class := ParamClass {
  __name__ : string;
  _column_id : string;
  _table : string;
  _ignore_cols : gset string
}.

Definition PreprocessedIlluminaParams : param_class :=
  {| __name__ := "PreprocessedIlluminaParams";
     _column_id := "preprocessed_params_id";
     _table := "preprocessed_sequence_illumina_params";
     _ignore_cols := {["param_set_name"]} |}.

Definition Preprocessed454Params : param_class :=
  {| __name__ := "Preprocessed454Params";
     _column_id := "preprocessed_params_id";
     _table := "preprocessed_sequence_454_params";
     _ignore_cols := {["param_set_name"]} |}.

Definition ProcessedSortmernaParams : param_class :=
  {| __name__ := "ProcessedSortmernaParams";
     _column_id := "processed_params_id";
     _table := "processed_params_sortmerna";
     _ignore_cols := {["reference_id"]} |}.

(** An instance: its class and its [id]. *)
Record params := Params {
  cls_of : param_class;
  id : value
}.

(** [BaseParameters._check_columns] *)
Definition _check_columns (cls : param_class) (kwargs : gmap string value)
  : M db unit :=
  let! cols := get_table_cols (_table cls) in
  let db_cols : gset string := list_to_set cols in
  let! db_cols := set_remove "param_set_name" db_cols in
  let! db_cols := set_remove "preprocessed_params_id" db_cols in
  let missing := db_cols ∖ dom kwargs in
  if decide (missing ≠ ∅) then raise (ValueError (MissingColumns missing))
  else
    let extra := dom kwargs ∖ db_cols in
    if decide (extra ≠ ∅) then raise (ValueError (ExtraColumns extra))
    else ret ().

(** [BaseParameters.exists] *)
Definition exists_ (cls : param_class) (kwargs : gmap string value)
  : M db bool :=
  let! _ := _check_columns cls kwargs in
  select_exists (_table cls) kwargs.

(** [BaseParameters._check_id].  Its first statement, [_check_subclass] of
    the base class, only refuses the abstract base class, which has no
    [_table]; every [param_class] has one. *)
Definition _check_id (cls : param_class) (id_ : value) : M db bool :=
  select_exists (_table cls) {[_column_id cls := id_]}.

(** Modelled from the spec: the constructor [QiitaObject.__init__] of
    qiita_db.base is not among the sources.  "Every instance must
    correspond to an existing row at construction time": the constructor
    asks [_check_id] and refuses an id that no row holds. *)
Definition __init__ (cls : param_class) (id_ : value) : M db params :=
  let! found := _check_id cls id_ in
  if found then ret (Params cls id_)
  else raise (QiitaDBUnknownIDError id_ (_table cls)).

(** [BaseParameters.create].  The column list and the value list of the
    [INSERT] both follow the iteration order of [kwargs], so each named
    column takes its own value, and [param_set_name] heads both. *)
Definition create (cls : param_class) (param_set_name : string)
    (kwargs : gmap string value) : M db params :=
  let! _ := _check_columns cls kwargs in
  let vals := <["param_set_name" := VStr param_set_name]> kwargs in
  let! dup := exists_ cls kwargs in
  if dup then raise (QiitaDBDuplicateError (__name__ cls) kwargs)
  else
    let! id_ := insert_returning (_table cls) vals "preprocessed_params_id" in
    __init__ cls id_.

(** [BaseParameters._get_values_as_dict]: [dict] of the row fetched, and
    [dict(None)] is a [TypeError]. *)
Definition _get_values_as_dict (self : params) : M db (gmap string value) :=
  let! row := select_row (_table (cls_of self)) (_column_id (cls_of self))
                (id self) in
  match row with
  | Some r => ret r
  | None => raise TypeError
  end.

(** The loop of [to_str] over the sorted columns, [result] being the list
    it appends to. *)
Fixpoint to_str_loop (ignore_cols : gset string) (values : gmap string value)
    (table_cols : list (string * string)) (result : list string)
  : M db (list string) :=
  match table_cols with
  | [] => ret result
  | (p_name, p_type) :: rest =>
      if decide (p_name ∈ ignore_cols) then
        to_str_loop ignore_cols values rest result
      else if decide (p_type = "boolean") then
        let! v := getitem values p_name in
        if truthy v
        then to_str_loop ignore_cols values rest (result ++ ["--" +:+ p_name])
        else to_str_loop ignore_cols values rest result
      else
        let! v := getitem values p_name in
        to_str_loop ignore_cols values rest
          (result ++ ["--" +:+ p_name +:+ " " +:+ str v])
  end.

(** [BaseParameters.to_str] *)
Definition to_str (self : params) : M db string :=
  let cls := cls_of self in
  let! table_cols := get_table_cols_w_type (_table cls) in
  let! table_cols := list_remove (_column_id cls, "bigint") table_cols in
  let! values := _get_values_as_dict self in
  let! result := to_str_loop (_ignore_cols cls) values
                   (sorted_pairs table_cols) [] in
  ret (join " " result).

(** [ProcessedSortmernaParams.reference]: first field of the row fetched,
    and [None[0]] is a [TypeError]. *)
Definition reference (self : params) : M db value :=
  let! row := select_field (_table (cls_of self)) "reference_id"
                (_column_id (cls_of self)) (id self) in
  match row with
  | Some v => ret v
  | None => raise TypeError
  end.

(** A file-like object: the strings written to it, oldest first. *)
Definition file := list string.
Definition write (f : file) (s : string) : file := f ++ [s].

(** The loop of [to_file] over the sorted items. *)
Fixpoint to_file_loop (ignore_cols : gset string)
    (items : list (string * value)) (f : file) : file :=
  match items with
  | [] => f
  | (key, v) :: rest =>
      if decide (key ∈ ignore_cols) then to_file_loop ignore_cols rest f
      else to_file_loop ignore_cols rest
             (write f ("pick_otus:" +:+ key +:+ TAB +:+ str v +:+ NL))
  end.

(** [ProcessedSortmernaParams.to_file]: the file after the call.  Nothing
    is written before the row is fetched and its id column deleted, so a
    call that raises leaves [f] as it was. *)
Definition to_file (self : params) (f : file) : M db file :=
  let cls := cls_of self in
  let! values := _get_values_as_dict self in
  let! values := delitem (_column_id cls) values in
  let f := write f ("pick_otus:otu_picking_method" +:+ TAB +:+ "sortmerna" +:+ NL) in
  ret (to_file_loop (_ignore_cols cls) (sorted_items (map_to_list values)) f).

End QiitaParameters.

Export QiitaParameters.

(** ** qiita_pet/uimodules/raw_data_tab.py *)

Module RawDataTab.

Definition DQUOTE : string := String (Ascii.ascii_of_nat 34) "".

(** What [RawDataEditorTab.render] reads from the study, the user, the ENA
    ontology and the raw data before it computes anything.  [F] is the type
    of an entry of [raw_data.get_filepaths()]. *)
Record editor_inputs (F : Type) := EditorInputs {
  study_status : string;
  user_level : string;
  ontology_terms : list string;
  ontology_user_defined_terms : list string;
  raw_data_get_filepaths : list F;
  raw_data_link_filepaths_status : string
}.
Arguments study_status {F} _.
Arguments user_level {F} _.
Arguments ontology_terms {F} _.
Arguments ontology_user_defined_terms {F} _.
Arguments raw_data_get_filepaths {F} _.
Arguments raw_data_link_filepaths_status {F} _.

(** The value of [show_unlink_btn]: the literal [False], or what
    [is_editable and raw_data_files] evaluates to, which is [False] when
    [is_editable] is and the list itself otherwise. *)
Inductive flag (F : Type) :=
  | PyBool (b : bool)
  | PyList (l : list F).
Arguments PyBool {F} b.
Arguments PyList {F} l.

Definition py_and {F} (a : bool) (l : list F) : flag F :=
  if a then PyList l else PyBool a.

(** Truth value of a flag in the template's [if]. *)
Definition is_true {F} (x : flag F) : bool :=
  match x with
  | PyBool b => b
  | PyList [] => false
  | PyList (_ :: _) => true
  end.

(** ['<option value="%s">%s</option>' % (v, v)] *)
Definition option_tag (v : string) : string :=
  "<option value=" +:+ DQUOTE +:+ v +:+ DQUOTE +:+ ">" +:+ v +:+ "</option>".

(** The loop over [sorted(ontology.terms)], [ena_terms] being the list it
    appends to. *)
Fixpoint ena_terms_loop (vs : list string) (ena_terms : list string)
  : list string :=
  match vs with
  | [] => ena_terms
  | v :: rest =>
      if decide (v ≠ "Other")
      then ena_terms_loop rest (ena_terms ++ [option_tag v])
      else ena_terms_loop rest ena_terms
  end.

Definition render_ena_terms (terms : list string) : list string :=
  ena_terms_loop (sorted terms) []
    ++ ["<option value=" +:+ DQUOTE +:+ "Other" +:+ DQUOTE +:+ ">Other</option>"].

(** The keyword arguments of [render_string] that [render] computes and the
    statements below are about; the remaining ones are handed over from the
    data layer and do not depend on these. *)
Record editor_context (F : Type) := EditorContext {
  ena_terms : list string;
  user_defined_terms : list string;
  is_editable : bool;
  show_unlink_btn : flag F;
  link_msg : string;
  raw_data_files : list F;
  disable_link_btn : bool
}.
Arguments ena_terms {F} _.
Arguments user_defined_terms {F} _.
Arguments is_editable {F} _.
Arguments show_unlink_btn {F} _.
Arguments link_msg {F} _.
Arguments raw_data_files {F} _.
Arguments disable_link_btn {F} _.

(** [RawDataEditorTab.render], up to the call of [render_string]. *)
Definition render {F} (i : editor_inputs F) : editor_context F :=
  let ena_terms := render_ena_terms (ontology_terms i) in
  let user_defined_terms := ontology_user_defined_terms i ++ ["New Type"] in
  let is_editable :=
    bool_decide (study_status i = "sandbox")
    || bool_decide (user_level i = "admin") in
  let raw_data_files := raw_data_get_filepaths i in
  let raw_data_link_status := raw_data_link_filepaths_status i in
  let show_unlink_btn := PyBool false in
  let disable_link_btn := true in
  if decide (raw_data_link_status = "linking") then
    EditorContext F ena_terms user_defined_terms is_editable show_unlink_btn
      "Linking files..." raw_data_files disable_link_btn
  else if decide (raw_data_link_status = "unlinking") then
    EditorContext F ena_terms user_defined_terms is_editable show_unlink_btn
      "Unlinking files..." raw_data_files disable_link_btn
  else
    let disable_link_btn := false in
    let show_unlink_btn := py_and is_editable raw_data_files in
    let link_msg :=
      if String.prefix "failed" raw_data_link_status
      then "Error (un)linkingfiles: " +:+ raw_data_link_status
      else "" in
    EditorContext F ena_terms user_defined_terms is_editable show_unlink_btn
      link_msg raw_data_files disable_link_btn.

End RawDataTab.

Export RawDataTab.

(** ** Notions the statements are about *)

Module Notions.

(** The keyword arguments [_check_columns] lets through: the columns of the
    table other than the name column and [preprocessed_params_id]. *)
Definition expected_cols (t : table) : gset string :=
  col_names t ∖ {["param_set_name"]} ∖ {["preprocessed_params_id"]}.

(** [self] is an existing instance in [d]: the check its constructor makes
    succeeds. *)
Definition existing (self : params) (d : db) : Prop :=
  _check_id (cls_of self) (id self) d = (Return true, d).

(** The row of [self], as [_get_values_as_dict] fetches it. *)
Definition row_of (self : params) (d : db) : option (gmap string value) :=
  t ← d !! _table (cls_of self);
  find (matches {[_column_id (cls_of self) := id self]}) (t_rows t).

(** The catalogue names no column twice, and every row holds a value for
    each column and for nothing else. *)
Definition table_wf (t : table) : Prop :=
  NoDup (t_cols t).*1 ∧ Forall (λ r, dom r = col_names t) (t_rows t).

(** The value-set of a row: its values in the columns other than the key
    and the name.  [named_value_set] keeps the name. *)
Definition value_set (t : table) (r : gmap string value) : gmap string value :=
  delete (t_key t) (delete "param_set_name" r).
Definition named_value_set (t : table) (r : gmap string value)
  : gmap string value :=
  delete (t_key t) r.

(** No two rows of the table share a value-set. *)
Definition unique_value_sets (t : table) : Prop :=
  NoDup (value_set t <$> t_rows t).
Definition unique_named_value_sets (t : table) : Prop :=
  NoDup (named_value_set t <$> t_rows t).

Definition db_unique (d : db) : Prop :=
  map_Forall (λ _ t, unique_value_sets t) d.
Definition db_unique_named (d : db) : Prop :=
  map_Forall (λ _ t, unique_named_value_sets t) d.

(** The row a successful [create] inserts, and the table with one more
    row. *)
Definition new_row (t : table) (name : string) (kwargs : gmap string value)
  : gmap string value :=
  <[t_key t := VInt (fresh_key t)]> (<["param_set_name" := VStr name]> kwargs).

Definition with_row (t : table) (r : gmap string value) : table :=
  Table (t_cols t) (t_key t) (t_rows t ++ [r]).

(** A computation that hands the database back as it received it. *)
Definition readonly {A} (m : M db A) : Prop := ∀ d, (m d).2 = d.

(** A call of [create], and the database after a sequence of them, whether
    they return or raise. *)
Definition create_call : Type := param_class * string * gmap string value.

Fixpoint run_creates (calls : list create_call) (d : db) : db :=
  match calls with
  | [] => d
  | (cls, name, kwargs) :: rest => run_creates rest (create cls name kwargs d).2
  end.

(** A call of any operation of the accessor. *)
Inductive call :=
  | CallExists (cls : param_class) (kwargs : gmap string value)
  | CallCreate (cls : param_class) (param_set_name : string)
      (kwargs : gmap string value)
  | CallToStr (self : params)
  | CallToFile (self : params) (f : file)
  | CallReference (self : params).

Definition run_call (c : call) (d : db) : db :=
  match c with
  | CallExists cls kwargs => (exists_ cls kwargs d).2
  | CallCreate cls name kwargs => (create cls name kwargs d).2
  | CallToStr self => (to_str self d).2
  | CallToFile self f => (to_file self f d).2
  | CallReference self => (reference self d).2
  end.

Definition run_calls (calls : list call) (d : db) : db :=
  foldl (λ d c, run_call c d) d calls.

(** What a column adds to the string of [to_str], in the claim's words: a
    boolean column the bare flag when its value is true and nothing
    otherwise, any other column the flag and the value. *)
Definition flag_of (values : gmap string value) (col : string * string)
  : list string :=
  match values !! col.1 with
  | Some v =>
      if decide (col.2 = "boolean")
      then (if truthy v then ["--" +:+ col.1] else [])
      else ["--" +:+ col.1 +:+ " " +:+ str v]
  | None => []
  end.

(** The line of the parameter file for one item. *)
Definition line_of (item : string * value) : string :=
  "pick_otus:" +:+ item.1 +:+ TAB +:+ str item.2 +:+ NL.

End Notions.

Export Notions.

(** ** A small database *)

Module Examples.

(** A table for [PreprocessedIlluminaParams] with one parameter set. *)
Definition illumina_table : table :=
  Table
    [("preprocessed_params_id", "bigint");
     ("param_set_name", "character varying");
     ("max_bad_run_length", "integer");
     ("rev_comp", "boolean");
     ("rev_comp_barcode", "boolean");
     ("barcode_type", "character varying")]
    "preprocessed_params_id"
    [{[ "preprocessed_params_id" := VInt 1;
        "param_set_name" := VStr "Defaults";
        "max_bad_run_length" := VInt 3;
        "rev_comp" := VBool false;
        "rev_comp_barcode" := VBool true;
        "barcode_type" := VStr "golay_12" ]}].

(** A table for [ProcessedSortmernaParams] with one parameter set: its key
    is the id column of the class, and it has a name column. *)
Definition sortmerna_table : table :=
  Table
    [("processed_params_id", "bigint");
     ("param_set_name", "character varying");
     ("reference_id", "bigint");
     ("max_pos", "integer");
     ("threads", "integer")]
    "processed_params_id"
    [{[ "processed_params_id" := VInt 1;
        "param_set_name" := VStr "Default";
        "reference_id" := VInt 1;
        "max_pos" := VInt 10000;
        "threads" := VInt 1 ]}].

Definition example_db : db :=
  {[ "preprocessed_sequence_illumina_params" := illumina_table;
     "processed_params_sortmerna" := sortmerna_table ]}.

(** Keyword arguments: the value-set the Illumina table holds, a new one,
    and one that leaves a column out. *)
Definition illumina_defaults : gmap string value :=
  {[ "max_bad_run_length" := VInt 3;
     "rev_comp" := VBool false;
     "rev_comp_barcode" := VBool true;
     "barcode_type" := VStr "golay_12" ]}.

Definition illumina_other : gmap string value :=
  {[ "max_bad_run_length" := VInt 5;
     "rev_comp" := VBool true;
     "rev_comp_barcode" := VBool false;
     "barcode_type" := VStr "golay_12" ]}.

(** Keyword arguments for the SortMeRNA table: the value-set it holds, a
    new one, and one that leaves [threads] out. *)
Definition sortmerna_defaults : gmap string value :=
  {[ "reference_id" := VInt 1; "max_pos" := VInt 10000; "threads" := VInt 1 ]}.

Definition sortmerna_other : gmap string value :=
  {[ "reference_id" := VInt 1; "max_pos" := VInt 10000; "threads" := VInt 4 ]}.

Definition sortmerna_incomplete : gmap string value :=
  {[ "reference_id" := VInt 1; "max_pos" := VInt 10000 ]}.

End Examples.

Export Examples.

(** ** Further notions about the parameter tables *)

Module MoreNotions.

(** Every table of the database is well formed. *)
Definition db_wf (d : db) : Prop := map_Forall (λ _ t, table_wf t) d.

End MoreNotions.

Export MoreNotions.

(** ** More of qiita_pet/uimodules/raw_data_tab.py *)

Module RawDataTabViews.

(** What an expression that indexes a list evaluates to: a value, or the
    [IndexError] of an index out of range. *)
Inductive indexed (A : Type) :=
  | Got (a : A)
  | IndexError.
Arguments Got {A} a.
Arguments IndexError {A}.

(** [l[i]] *)
Definition getindex {A} (l : list A) (i : nat) : indexed A :=
  match l !! i with
  | Some x => Got x
  | None => IndexError
  end.

(** [l[-1]] *)
Definition getlast {A} (l : list A) : indexed A :=
  match last l with
  | Some x => Got x
  | None => IndexError
  end.

(** The characters ['_'] and [' ']. *)
Definition UNDERSCORE : Ascii.ascii := Ascii.ascii_of_nat 95.
Definition SPACE : Ascii.ascii := Ascii.ascii_of_nat 32.

(** [s.split(sep, 1)] for a one-character separator: the string cut at the
    first separator, or the string alone when it has none. *)
Fixpoint split_once (sep : Ascii.ascii) (s : string) : list string :=
  match s with
  | "" => [""]
  | String a s' =>
      if decide (a = sep) then [""; s']
      else match split_once sep s' with
           | [] => [String a ""]
           | x :: rest => String a x :: rest
           end
  end.

(** [s.replace(old, new)] for one-character [old] and [new] *)
Fixpoint replace_char (old new : Ascii.ascii) (s : string) : string :=
  match s with
  | "" => ""
  | String a s' =>
      String (if decide (a = old) then new else a) (replace_char old new s')
  end.

(** The list comprehension of [RawDataEditorTab.render] over the keys of
    [get_filepath_types()], in the order the dict yields them:
    [[k.split('_', 1)[1].replace('_', ' ') for k in ... if k.startswith('raw_')]] *)
Fixpoint filepath_types (keys : list string) : indexed (list string) :=
  match keys with
  | [] => Got []
  | k :: rest =>
      if String.prefix "raw_" k then
        match getindex (split_once UNDERSCORE k) 1 with
        | Got x =>
            match filepath_types rest with
            | Got fts => Got (replace_char UNDERSCORE SPACE x :: fts)
            | IndexError => IndexError
            end
        | IndexError => IndexError
        end
      else filepath_types rest
  end.

(** What [get_raw_data_from_other_studies] reads through the classes
    [Study] and [RawData] of the data layer, which are not among the
    sources: the raw data of a study, the studies of a raw data, and the
    title of a study, by id. *)
Record data_layer := DataLayer {
  Study_raw_data : Z → list Z;
  RawData_studies : Z → list Z;
  Study_title : Z → string
}.

(** The inner loop of [get_raw_data_from_other_studies], over the raw data
    of one study. *)
Fixpoint other_studies_inner (L : data_layer) (rdids : list Z)
    (d : gmap Z string) : indexed (gmap Z string) :=
  match rdids with
  | [] => Got d
  | rdid :: rest =>
      match getlast (RawData_studies L rdid) with
      | Got sid => other_studies_inner L rest (<[rdid := Study_title L sid]> d)
      | IndexError => IndexError
      end
  end.

(** The outer loop, over [user.user_studies] in the order it yields them. *)
Fixpoint other_studies_outer (L : data_layer) (user_studies : list Z)
    (study_id : Z) (d : gmap Z string) : indexed (gmap Z string) :=
  match user_studies with
  | [] => Got d
  | sid :: rest =>
      if decide (sid = study_id) then other_studies_outer L rest study_id d
      else
        match other_studies_inner L (Study_raw_data L sid) d with
        | Got d' => other_studies_outer L rest study_id d'
        | IndexError => IndexError
        end
  end.

(** The title the function files the raw data [k] under: that of its last
    study. *)
Definition title_of (L : data_layer) (k : Z) : option string :=
  Study_title L <$> last (RawData_studies L k).

(** [k] is a raw data of one of the listed studies other than the current
    one. *)
Definition reachable (L : data_layer) (user_studies : list Z)
    (study_id k : Z) : Prop :=
  Exists (λ sid, sid ≠ study_id ∧ k ∈ Study_raw_data L sid) user_studies.

#[global] Instance reachable_dec L user_studies study_id k :
  Decision (reachable L user_studies study_id k).
Proof. unfold reachable. apply _. Defined.

(** [get_raw_data_from_other_studies(user, study)] *)
Definition get_raw_data_from_other_studies (L : data_layer)
    (user_studies : list Z) (study_id : Z) : indexed (gmap Z string) :=
  other_studies_outer L user_studies study_id ∅.

End RawDataTabViews.

Export RawDataTabViews.

(** ** More example data *)

Module MoreExamples.

(** The example database with the key of the SortMeRNA table listed as an
    [integer]. *)
Definition integer_key_table : table :=
  Table
    [("processed_params_id", "integer");
     ("param_set_name", "character varying");
     ("reference_id", "bigint");
     ("max_pos", "integer");
     ("threads", "integer")]
    "processed_params_id"
    (t_rows sortmerna_table).

Definition integer_key_db : db :=
  {[ "processed_params_sortmerna" := integer_key_table ]}.

(** A table with a key and a name and no other column. *)
Definition names_only_db : db :=
  {[ "preprocessed_sequence_454_params" :=
       Table [("preprocessed_params_id", "bigint");
              ("param_set_name", "character varying")]
         "preprocessed_params_id" [] ]}.

(** A sequence of calls of every kind. *)
Definition example_calls : list call :=
  [ CallCreate PreprocessedIlluminaParams "Other" illumina_other;
    CallExists PreprocessedIlluminaParams illumina_other;
    CallCreate PreprocessedIlluminaParams "Again" illumina_other;
    CallToStr (Params PreprocessedIlluminaParams (VInt 2));
    CallCreate ProcessedSortmernaParams "Threads" sortmerna_other;
    CallToFile (Params ProcessedSortmernaParams (VInt 1)) [];
    CallReference (Params ProcessedSortmernaParams (VInt 1)) ].

(** A data layer with three studies: study 1 holds the raw data 10 and 11,
    study 2 the raw data 11 and 12, study 3 none; every raw data is on
    record under the studies 1 and 2, in this order. *)
Definition example_layer : data_layer :=
  DataLayer
    (λ sid, if decide (sid = 1) then [10; 11]
            else if decide (sid = 2) then [11; 12] else [])%Z
    (λ _, [1; 2]%Z)
    (λ sid, if decide (sid = 1)%Z then "Study one" else "Study two").

End MoreExamples.

Export MoreExamples.

(** * Properties *)

(** ** Lists, sorting and strings *)

Module Facts.

Section sorting.
Context {A : Type} (R : relation A).

Lemma StronglySorted_filter (P : A → Prop) `{!∀ x, Decision (P x)} (l : list A) :
  StronglySorted R l → StronglySorted R (filter P l).
Proof.
  induction 1 as [|x l Hl IH Hx]; [constructor|].
  rewrite filter_cons. case_decide; [|assumption].
  constructor; [assumption|].
  apply Forall_forall. intros y [_ Hy]%list_elem_of_filter.
  rewrite Forall_forall in Hx. auto.
Qed.

Lemma StronglySorted_weaken (R' : relation A) (l : list A) :
  (∀ x y, R x y → R' x y) → StronglySorted R l → StronglySorted R' l.
Proof.
  intros HR. induction 1 as [|x l Hl IH Hx]; constructor; [assumption|].
  eapply Forall_impl; [exact Hx|]. auto.
Qed.

End sorting.

Lemma sorted_StronglySorted (l : list string) : StronglySorted String.le (sorted l).
Proof. apply StronglySorted_merge_sort; apply _. Qed.

Lemma sorted_Permutation (l : list string) : sorted l ≡ₚ l.
Proof. apply merge_sort_Permutation. Qed.

(** Any ascending arrangement of [l] is [sorted l]: the model of Python's
    [sorted] does not depend on the sorting algorithm. *)
Lemma sorted_unique (l k : list string) :
  StronglySorted String.le k → k ≡ₚ l → k = sorted l.
Proof.
  intros Hk Hp. apply (StronglySorted_unique String.le); [assumption| |].
  - apply sorted_StronglySorted.
  - rewrite Hp. symmetry. apply sorted_Permutation.
Qed.

#[global] Instance pair_le_total : Total pair_le.
Proof.
  intros x y. unfold pair_le.
  destruct (decide (x.1 = y.1)) as [Heq|Hne].
  - rewrite decide_True by done. apply (total String.le).
  - rewrite decide_False by done. apply (total String.le).
Qed.

#[global] Instance pair_le_trans : Transitive pair_le.
Proof.
  intros x y z. unfold pair_le.
  destruct (decide (x.1 = y.1)) as [Hxy|Hxy],
    (decide (y.1 = z.1)) as [Hyz|Hyz]; intros H1 H2.
  - rewrite decide_True by congruence. by etrans.
  - rewrite decide_False by congruence. by rewrite Hxy.
  - rewrite decide_False by congruence. by rewrite <-Hyz.
  - destruct (decide (x.1 = z.1)) as [Hxz|Hxz]; [|by etrans].
    exfalso. apply Hxy. apply (anti_symm String.le); [done|].
    by rewrite Hxz.
Qed.

Lemma pair_le_fst (x y : string * string) : pair_le x y → String.le x.1 y.1.
Proof.
  unfold pair_le. destruct (decide (x.1 = y.1)) as [->|]; [|done].
  intros _. reflexivity.
Qed.

#[global] Instance key_le_total {V} : Total (@key_le V).
Proof. intros x y. apply (total String.le). Qed.

#[global] Instance key_le_trans {V} : Transitive (@key_le V).
Proof. intros x y z. unfold key_le. apply transitivity. Qed.

Lemma existsb_find {A} (p : A → bool) (l : list A) :
  existsb p l = true → ∃ x, find p l = Some x ∧ x ∈ l ∧ p x = true.
Proof.
  induction l as [|y l IH]; simpl; [discriminate|].
  destruct (p y) eqn:Hy.
  - intros _. exists y. split; [done|]. split; [left|done].
  - intros (x & ? & ? & ?)%IH. exists x. split; [done|]. split; [by right|done].
Qed.

Lemma filter_all {A} (P : A → Prop) `{!∀ x, Decision (P x)} (l : list A) :
  (∀ x, x ∈ l → P x) → filter P l = l.
Proof.
  induction l as [|y l IH]; intros Hall; [done|].
  rewrite filter_cons_True by (apply Hall; left).
  f_equal. apply IH. intros x Hx. apply Hall. by right.
Qed.

(** [l.remove(x)] on a list of columns, no two of which share a name, drops
    the column named as [x] is. *)
Lemma list_remove_first_columns (x : string * string) (l : list (string * string)) :
  NoDup l.*1 → x ∈ l →
  list_remove_first x l = Some (filter (λ c, c.1 ≠ x.1) l).
Proof.
  induction l as [|y l IH]; [by intros _ ?%not_elem_of_nil|].
  rewrite fmap_cons, NoDup_cons. intros [Hy Hnd] Hx. simpl.
  destruct (decide (x = y)) as [->|Hne].
  - rewrite filter_cons_False by (by intros ?). f_equal.
    symmetry. apply filter_all. intros c Hc Heq. apply Hy.
    rewrite <-Heq. by apply list_elem_of_fmap_2.
  - apply elem_of_cons in Hx as [?|Hx]; [done|].
    rewrite (IH Hnd Hx). rewrite filter_cons_True; [done|].
    intros Heq. apply Hy. rewrite Heq. by apply list_elem_of_fmap_2.
Qed.

Lemma string_app_length (s t : string) :
  String.length (s +:+ t) = String.length s + String.length t.
Proof. induction s as [|a s IH]; simpl; [reflexivity|]. by rewrite IH. Qed.

Lemma string_app_inj_length (s1 s2 t1 t2 : string) :
  String.length s1 = String.length s2 → s1 +:+ t1 = s2 +:+ t2 → s1 = s2.
Proof.
  revert s2. induction s1 as [|a s1 IH]; intros [|b s2] Hlen Heq;
    simpl in *; try discriminate; [reflexivity|].
  injection Heq as -> Heq. f_equal. apply IH; [lia|assumption].
Qed.

End Facts.

(** ** The raw-data editor tab *)

Module RawDataTabSpec.
Import Facts.

Section flags.
Context {F : Type}.
Implicit Types i : editor_inputs F.

Lemma is_true_py_and (a : bool) (l : list F) :
  is_true (py_and a l) = true ↔ a = true ∧ l ≠ [].
Proof. destruct a, l; simpl; intuition congruence. Qed.

Lemma render_is_editable i :
  is_editable (render i)
  = bool_decide (study_status i = "sandbox")
    || bool_decide (user_level i = "admin").
Proof. unfold render. repeat case_decide; reflexivity. Qed.

(** C10: [is_editable] is true exactly when the study's status is
    "sandbox" or the user's level is "admin"; so for a user who is not an
    admin and a study that is not sandboxed the raw data is flagged as not
    editable. *)
Theorem render_is_editable_iff i :
  (is_editable (render i) = true
   ↔ study_status i = "sandbox" ∨ user_level i = "admin")
  ∧ (user_level i ≠ "admin" → study_status i ≠ "sandbox"
     → is_editable (render i) = false).
Proof.
  rewrite render_is_editable. split.
  - rewrite orb_true_iff, !bool_decide_eq_true. reflexivity.
  - intros Hu Hs. apply orb_false_iff.
    split; apply bool_decide_eq_false; assumption.
Qed.

(** C8: the flags of the link controls.  [disable_link_btn] is true exactly
    when the link status is "linking" or "unlinking"; [show_unlink_btn]
    counts as true exactly when the status is neither, the raw data is
    editable and a file is attached; for a status that is neither, the
    message is the error text followed by the status when the status starts
    with "failed", and empty otherwise; and two renderings that agree on
    the link status, the study's status, the user's level and the attached
    files agree on all of these. *)
Theorem render_link_flags i :
  let status := raw_data_link_filepaths_status i in
  let c := render i in
  (disable_link_btn c = true ↔ status = "linking" ∨ status = "unlinking")
  ∧ (is_true (show_unlink_btn c) = true
     ↔ status ≠ "linking" ∧ status ≠ "unlinking"
       ∧ is_editable c = true ∧ raw_data_get_filepaths i ≠ [])
  ∧ (status ≠ "linking" → status ≠ "unlinking" →
     link_msg c = if String.prefix "failed" status
                  then "Error (un)linkingfiles: " +:+ status else "")
  ∧ (∀ j : editor_inputs F,
       raw_data_link_filepaths_status j = status →
       study_status j = study_status i →
       user_level j = user_level i →
       raw_data_get_filepaths j = raw_data_get_filepaths i →
       disable_link_btn (render j) = disable_link_btn c
       ∧ show_unlink_btn (render j) = show_unlink_btn c
       ∧ link_msg (render j) = link_msg c
       ∧ is_editable (render j) = is_editable c).
Proof.
  intros status c. subst c status.
  split; [|split; [|split]].
  - unfold render. repeat case_decide; simpl; intuition congruence.
  - unfold render. repeat case_decide; simpl; rewrite ?is_true_py_and;
      try destruct (raw_data_get_filepaths i); intuition congruence.
  - intros Hl Hu. unfold render. repeat case_decide; simpl; congruence.
  - intros j Hs Hst Hu Hf. unfold render. rewrite Hs, Hst, Hu, Hf.
    repeat case_decide; auto.
Qed.

End flags.


Section ena.

#[local] Instance option_tag_inj : Inj (=) (=) option_tag.
Proof.
  intros v w Heq. unfold option_tag in Heq.
  apply (inj (String.app _)), (inj (String.app _)) in Heq.
  eapply string_app_inj_length; [|exact Heq].
  apply (f_equal String.length) in Heq.
  rewrite !string_app_length in Heq. simpl in Heq. lia.
Qed.

Lemma ena_terms_loop_spec vs acc :
  ena_terms_loop vs acc
  = acc ++ (option_tag <$> filter (λ v, v ≠ "Other") vs).
Proof.
  revert acc. induction vs as [|v vs IH]; intros acc; simpl.
  - by rewrite app_nil_r.
  - rewrite filter_cons. case_decide.
    + rewrite IH, <-app_assoc. reflexivity.
    + apply IH.
Qed.

(** C9: the ENA options end with the "Other" option; before it come the
    terms of the ontology other than "Other", in ascending order, each
    rendered as an option whose value and text are the term, and each as
    often as the ontology lists it: where the ontology lists every term
    once, no option is repeated. *)
Theorem render_ena_terms_spec (terms : list string) :
  ∃ l : list string,
    render_ena_terms terms = (option_tag <$> l) ++ [option_tag "Other"]
    ∧ StronglySorted String.le l
    ∧ (∀ v, v ∈ l ↔ v ∈ terms ∧ v ≠ "Other")
    ∧ l ≡ₚ filter (λ v, v ≠ "Other") terms
    ∧ (NoDup terms → NoDup (render_ena_terms terms)).
Proof.
  exists (filter (λ v, v ≠ "Other") (sorted terms)).
  assert (Hperm : filter (λ v, v ≠ "Other") (sorted terms)
                  ≡ₚ filter (λ v, v ≠ "Other") terms).
  { by rewrite sorted_Permutation. }
  assert (Hin : ∀ v, v ∈ filter (λ v, v ≠ "Other") (sorted terms)
                     ↔ v ∈ terms ∧ v ≠ "Other").
  { intros v. rewrite Hperm, list_elem_of_filter. tauto. }
  assert (Heq : render_ena_terms terms
    = (option_tag <$> filter (λ v, v ≠ "Other") (sorted terms))
      ++ [option_tag "Other"]).
  { unfold render_ena_terms. rewrite ena_terms_loop_spec. reflexivity. }
  split; [exact Heq|]. split; [|split; [exact Hin|split; [exact Hperm|]]].
  - apply StronglySorted_filter, sorted_StronglySorted.
  - intros Hnd. rewrite Heq, <-(fmap_app option_tag _ ["Other"]).
    apply (NoDup_fmap_2 option_tag), NoDup_app. split; [|split].
    + rewrite Hperm. by apply NoDup_filter.
    + intros v [_ Hv]%Hin ->%list_elem_of_singleton. by apply Hv.
    + apply NoDup_singleton.
Qed.

End ena.

End RawDataTabSpec.

(** ** Parameter sets *)

Module ParametersSpec.
Import Facts.

Lemma matches_spec (conds r : gmap string value) :
  matches conds r = true ↔ conds ⊆ r.
Proof. unfold matches. apply bool_decide_eq_true. Qed.

Lemma matches_singleton (c : string) (v : value) (r : gmap string value) :
  matches {[c := v]} r = true ↔ r !! c = Some v.
Proof. rewrite matches_spec. apply map_singleton_subseteq_l. Qed.

Lemma get_table_cols_run (tbl : string) (d : db) :
  get_table_cols tbl d
  = (Return (match d !! tbl with Some t => (t_cols t).*1 | None => [] end), d).
Proof.
  unfold get_table_cols, get_table_cols_w_type, bind, ret.
  by destruct (d !! tbl).
Qed.

(** What [_check_columns] does, case by case. *)
Lemma check_columns_run (cls : param_class) (kwargs : gmap string value) (d : db) :
  _check_columns cls kwargs d
  = (match d !! _table cls with
     | None => Raise (KeyError "param_set_name")
     | Some t =>
         if decide ("param_set_name" ∈ col_names t) then
           if decide ("preprocessed_params_id" ∈ col_names t) then
             if decide (expected_cols t ∖ dom kwargs ≠ ∅)
             then Raise (ValueError (MissingColumns (expected_cols t ∖ dom kwargs)))
             else if decide (dom kwargs ∖ expected_cols t ≠ ∅)
             then Raise (ValueError (ExtraColumns (dom kwargs ∖ expected_cols t)))
             else Return ()
           else Raise (KeyError "preprocessed_params_id")
         else Raise (KeyError "param_set_name")
     end, d).
Proof.
  unfold _check_columns. unfold bind at 1. rewrite get_table_cols_run.
  destruct (d !! _table cls) as [t|]; [|reflexivity].
  unfold set_remove, bind, raise, ret, expected_cols, col_names.
  destruct (decide ("param_set_name" ∈ _)) as [Hn|Hn]; [|reflexivity].
  destruct (decide ("preprocessed_params_id" ∈ list_to_set (t_cols t).*1 ∖ _))
    as [Hk|Hk];
    destruct (decide ("preprocessed_params_id" ∈ _)) as [Hk'|Hk'];
    try reflexivity; [|exfalso; set_solver..].
  repeat case_decide; reflexivity.
Qed.

Lemma check_columns_ok (cls : param_class) (kwargs : gmap string value)
    (d : db) (t : table) :
  d !! _table cls = Some t →
  "param_set_name" ∈ col_names t →
  "preprocessed_params_id" ∈ col_names t →
  dom kwargs = expected_cols t →
  _check_columns cls kwargs d = (Return (), d).
Proof.
  intros Ht Hn Hk Hdom. rewrite check_columns_run, Ht.
  rewrite !decide_True by assumption.
  rewrite !decide_False by set_solver. reflexivity.
Qed.

(** [exists] on a complete assignment is the test whether a row holds
    exactly these values in the expected columns. *)
Lemma exists_run (cls : param_class) (kwargs : gmap string value)
    (d : db) (t : table) :
  d !! _table cls = Some t →
  "param_set_name" ∈ col_names t →
  "preprocessed_params_id" ∈ col_names t →
  dom kwargs = expected_cols t →
  kwargs ≠ ∅ →
  exists_ cls kwargs d = (Return (existsb (matches kwargs) (t_rows t)), d).
Proof.
  intros Ht Hn Hk Hdom Hne. unfold exists_, bind.
  rewrite (check_columns_ok _ _ _ t) by assumption.
  unfold select_exists. rewrite Ht.
  rewrite decide_False by assumption.
  rewrite decide_True; [reflexivity|].
  rewrite Hdom. unfold expected_cols. set_solver.
Qed.

Lemma foldr_max_ge (l : list Z) (x : Z) : x ∈ l → (x ≤ foldr Z.max 0 l)%Z.
Proof.
  induction l as [|y l IH]; [by intros ?%not_elem_of_nil|].
  intros [->|Hx]%elem_of_cons; simpl; [lia|]. specialize (IH Hx). lia.
Qed.

(** The key the database draws is held by no row. *)
Lemma fresh_key_fresh (t : table) :
  existsb (matches {[t_key t := VInt (fresh_key t)]}) (t_rows t) = false.
Proof.
  apply not_true_is_false. intros (r & Hr & Hm)%existsb_exists.
  apply matches_singleton in Hm.
  assert (key_of t r = fresh_key t) as Hk by (unfold key_of; by rewrite Hm).
  assert (key_of t r ≤ foldr Z.max 0 (key_of t <$> t_rows t))%Z.
  { apply foldr_max_ge, list_elem_of_fmap_2, list_elem_of_In, Hr. }
  unfold fresh_key in Hk. lia.
Qed.

Lemma insert_run (tbl name : string) (kwargs : gmap string value)
    (d : db) (t : table) :
  d !! tbl = Some t →
  t_key t = "preprocessed_params_id" →
  "param_set_name" ∈ col_names t →
  "preprocessed_params_id" ∈ col_names t →
  dom kwargs = expected_cols t →
  insert_returning tbl (<["param_set_name" := VStr name]> kwargs)
    "preprocessed_params_id" d
  = (Return (VInt (fresh_key t)),
     <[tbl := with_row t (new_row t name kwargs)]> d).
Proof.
  intros Ht Hkey Hn Hk Hdom. unfold insert_returning. rewrite Ht.
  destruct t as [cols key rows]. simpl in Hkey. subst key.
  set (t := Table cols "preprocessed_params_id" rows) in *. simpl.
  assert (Hnone : <["param_set_name" := VStr name]> kwargs
                    !! "preprocessed_params_id" = None).
  { rewrite lookup_insert_ne by done.
    apply not_elem_of_dom. rewrite Hdom. unfold expected_cols. set_solver. }
  rewrite decide_True; last first.
  { rewrite dom_insert_L, Hdom. unfold expected_cols. set_solver. }
  rewrite decide_True; last first.
  { rewrite dom_insert_L, Hdom. unfold expected_cols.
    intros c. rewrite !elem_of_difference, elem_of_union, !elem_of_singleton,
      !elem_of_difference, !elem_of_singleton.
    destruct (decide (c = "preprocessed_params_id")); [done|].
    destruct (decide (c = "param_set_name")); tauto. }
  rewrite Hnone, !lookup_insert_eq.
  pose proof (fresh_key_fresh t) as Hf. simpl in Hf. rewrite Hf.
  reflexivity.
Qed.

(** *** Operations that only read *)

Create HintDb readonly.

Lemma readonly_ret {A} (a : A) : readonly (ret a).
Proof. by intros d. Qed.

Lemma readonly_raise {A} (e : exn) : readonly (@raise db A e).
Proof. by intros d. Qed.

Lemma readonly_bind {A B} (m : M db A) (k : A → M db B) :
  readonly m → (∀ a, readonly (k a)) → readonly (bind m k).
Proof.
  intros Hm Hk d. unfold bind. specialize (Hm d).
  destruct (m d) as [[a|e] d']; simpl in *; subst d'; [apply Hk|reflexivity].
Qed.

Lemma readonly_get_table_cols_w_type tbl : readonly (get_table_cols_w_type tbl).
Proof. by intros d. Qed.

Lemma readonly_select_exists tbl conds : readonly (select_exists tbl conds).
Proof. intros d. unfold select_exists. by repeat case_match. Qed.

Lemma readonly_select_row tbl col v : readonly (select_row tbl col v).
Proof. intros d. unfold select_row. by repeat case_match. Qed.

Lemma readonly_select_field tbl sel col v : readonly (select_field tbl sel col v).
Proof. intros d. unfold select_field. by repeat case_match. Qed.

#[local] Hint Resolve readonly_ret readonly_raise readonly_get_table_cols_w_type
  readonly_select_exists readonly_select_row readonly_select_field : readonly.

Ltac readonly_step :=
  match goal with
  | |- readonly (bind _ _) => apply readonly_bind; [|intros ?]
  | |- readonly (if ?b then _ else _) => destruct b
  | |- readonly (match ?x with _ => _ end) => destruct x
  | |- readonly _ => solve [auto with readonly]
  end.
Ltac solve_readonly := repeat readonly_step.

Lemma readonly_get_table_cols tbl : readonly (get_table_cols tbl).
Proof. unfold get_table_cols. solve_readonly. Qed.

Lemma readonly_set_remove x s : readonly (@set_remove db x s).
Proof. unfold set_remove. solve_readonly. Qed.

Lemma readonly_list_remove {A} `{EqDecision A} (x : A) l :
  readonly (@list_remove db A _ x l).
Proof. unfold list_remove. solve_readonly. Qed.

Lemma readonly_getitem values k : readonly (@getitem db values k).
Proof. unfold getitem. solve_readonly. Qed.

Lemma readonly_delitem k values : readonly (@delitem db k values).
Proof. unfold delitem. solve_readonly. Qed.

#[local] Hint Resolve readonly_get_table_cols readonly_set_remove
  readonly_list_remove readonly_getitem readonly_delitem : readonly.

Lemma readonly_check_columns cls kwargs : readonly (_check_columns cls kwargs).
Proof. unfold _check_columns. solve_readonly. Qed.
#[local] Hint Resolve readonly_check_columns : readonly.

Lemma readonly_exists cls kwargs : readonly (exists_ cls kwargs).
Proof. unfold exists_. solve_readonly. Qed.

Lemma readonly_check_id cls id_ : readonly (_check_id cls id_).
Proof. unfold _check_id. solve_readonly. Qed.
#[local] Hint Resolve readonly_exists readonly_check_id : readonly.

Lemma readonly_init cls id_ : readonly (__init__ cls id_).
Proof. unfold __init__. solve_readonly. Qed.

Lemma readonly_get_values_as_dict self : readonly (_get_values_as_dict self).
Proof. unfold _get_values_as_dict. solve_readonly. Qed.
#[local] Hint Resolve readonly_init readonly_get_values_as_dict : readonly.

Lemma readonly_to_str_loop ignore_cols values table_cols result :
  readonly (to_str_loop ignore_cols values table_cols result).
Proof.
  revert result. induction table_cols as [|[p_name p_type] rest IH];
    intros result; simpl; solve_readonly; apply IH.
Qed.
#[local] Hint Resolve readonly_to_str_loop : readonly.

Lemma readonly_to_str self : readonly (to_str self).
Proof. unfold to_str. solve_readonly. Qed.

Lemma readonly_reference self : readonly (reference self).
Proof. unfold reference. solve_readonly. Qed.

Lemma readonly_to_file self f : readonly (to_file self f).
Proof. unfold to_file. solve_readonly. Qed.

(** *** [create] on a table that has the columns [_check_columns] names *)

Section create.
Variables (cls : param_class) (name : string) (kwargs : gmap string value).
Variables (d : db) (t : table).
Hypothesis Htable : d !! _table cls = Some t.
Hypothesis Hname : "param_set_name" ∈ col_names t.
Hypothesis Hid : "preprocessed_params_id" ∈ col_names t.
Hypothesis Hdom : dom kwargs = expected_cols t.
Hypothesis Hnonempty : kwargs ≠ ∅.

(** A value-set a row of the table holds is refused, and nothing is
    inserted. *)
Lemma create_duplicate :
  existsb (matches kwargs) (t_rows t) = true →
  create cls name kwargs d
  = (Raise (QiitaDBDuplicateError (__name__ cls) kwargs), d).
Proof using Htable Hname Hid Hdom Hnonempty.
  intros Hdup. unfold create. unfold bind at 1.
  rewrite (check_columns_ok _ _ _ t) by assumption.
  unfold bind at 1. rewrite (exists_run _ _ _ t) by assumption.
  rewrite Hdup. reflexivity.
Qed.

Hypothesis Hkey : t_key t = "preprocessed_params_id".

Lemma create_insert :
  existsb (matches kwargs) (t_rows t) = false →
  create cls name kwargs d
  = __init__ cls (VInt (fresh_key t))
      (<[_table cls := with_row t (new_row t name kwargs)]> d).
Proof using Htable Hname Hid Hdom Hnonempty Hkey.
  intros Hnew. unfold create. unfold bind at 1.
  rewrite (check_columns_ok _ _ _ t) by assumption.
  unfold bind at 1. rewrite (exists_run _ _ _ t) by assumption.
  rewrite Hnew. unfold bind.
  rewrite (insert_run _ _ _ _ t) by assumption. reflexivity.
Qed.

Lemma new_row_matches : matches kwargs (new_row t name kwargs) = true.
Proof using Hdom Hkey.
  clear Htable Hname Hid Hnonempty. apply matches_spec. unfold new_row. rewrite Hkey.
  assert (Hk : ∀ c, c ∈ dom kwargs → c ≠ "param_set_name"
                    ∧ c ≠ "preprocessed_params_id").
  { intros c. rewrite Hdom. unfold expected_cols. set_solver. }
  etrans; [|apply insert_subseteq]; [apply insert_subseteq|].
  - apply not_elem_of_dom. intros ?%Hk. tauto.
  - rewrite lookup_insert_ne by done.
    apply not_elem_of_dom. intros ?%Hk. tauto.
Qed.

Hypothesis Hcolumn : _column_id cls = "preprocessed_params_id".

(** A value-set no row holds is inserted as one new row, the handle
    returned carries the key of that row, and [exists] then reports the
    value-set. *)
Lemma create_new :
  existsb (matches kwargs) (t_rows t) = false →
  let d' := <[_table cls := with_row t (new_row t name kwargs)]> d in
  create cls name kwargs d = (Return (Params cls (VInt (fresh_key t))), d')
  ∧ new_row t name kwargs !! _column_id cls = Some (VInt (fresh_key t))
  ∧ exists_ cls kwargs d' = (Return true, d').
Proof using Htable Hname Hid Hdom Hnonempty Hkey Hcolumn.
  intros Hnew d'. split; [|split].
  - rewrite create_insert by assumption. fold d'.
    unfold __init__, bind, _check_id, select_exists.
    subst d'. rewrite lookup_insert_eq.
    rewrite decide_False by apply insert_non_empty.
    rewrite decide_True; last first.
    { rewrite dom_singleton_L, Hcolumn. unfold col_names. simpl.
      fold (col_names t). set_solver. }
    simpl. rewrite existsb_app. simpl.
    replace (matches _ (new_row t name kwargs)) with true.
    { by rewrite orb_true_r. }
    symmetry. apply matches_singleton. unfold new_row.
    by rewrite Hcolumn, Hkey, lookup_insert_eq.
  - unfold new_row. by rewrite Hcolumn, Hkey, lookup_insert_eq.
  - rewrite (exists_run _ _ _ (with_row t (new_row t name kwargs))); try done.
    + simpl. rewrite existsb_app. simpl.
      by rewrite new_row_matches, orb_true_r.
    + subst d'. by rewrite lookup_insert_eq.
Qed.

End create.

(** *** What [create] does to the database, on any class and any database *)

Lemma create_effect (cls : param_class) (name : string)
    (kwargs : gmap string value) (d : db) :
  (create cls name kwargs d).2 = d
  ∨ ∃ t, d !! _table cls = Some t
       ∧ t_key t = "preprocessed_params_id"
       ∧ dom kwargs = expected_cols t
       ∧ existsb (matches kwargs) (t_rows t) = false
       ∧ ("param_set_name" ∈ col_names t
          ∧ "preprocessed_params_id" ∈ col_names t ∧ kwargs ≠ ∅)
       ∧ create cls name kwargs d
         = __init__ cls (VInt (fresh_key t))
             (<[_table cls := with_row t (new_row t name kwargs)]> d).
Proof.
  destruct (d !! _table cls) as [t|] eqn:Ht.
  2: { left. unfold create. unfold bind at 1.
       by rewrite check_columns_run, Ht. }
  destruct (decide ("param_set_name" ∈ col_names t)) as [Hn|Hn].
  2: { left. unfold create. unfold bind at 1.
       by rewrite check_columns_run, Ht, decide_False. }
  destruct (decide ("preprocessed_params_id" ∈ col_names t)) as [Hk|Hk].
  2: { left. unfold create. unfold bind at 1.
       by rewrite check_columns_run, Ht, decide_True, decide_False. }
  destruct (decide (expected_cols t ∖ dom kwargs ≠ ∅)) as [Hm|Hm].
  { left. unfold create. unfold bind at 1.
    by rewrite check_columns_run, Ht, !decide_True. }
  destruct (decide (dom kwargs ∖ expected_cols t ≠ ∅)) as [He|He].
  { left. unfold create. unfold bind at 1.
    rewrite check_columns_run, Ht, !decide_True by done.
    by rewrite decide_False, decide_True. }
  assert (Hdom : dom kwargs = expected_cols t).
  { assert (expected_cols t ∖ dom kwargs = ∅) by (by apply dec_stable).
    assert (dom kwargs ∖ expected_cols t = ∅) by (by apply dec_stable).
    apply set_eq. intros c.
    destruct (decide (c ∈ dom kwargs)), (decide (c ∈ expected_cols t));
      set_solver. }
  destruct (decide (kwargs = ∅)) as [Hempty|Hne].
  { left. unfold create. unfold bind at 1.
    rewrite (check_columns_ok _ _ _ t) by assumption.
    unfold bind at 1. unfold exists_. unfold bind at 1.
    rewrite (check_columns_ok _ _ _ t) by assumption.
    unfold select_exists. by rewrite Ht, decide_True. }
  destruct (existsb (matches kwargs) (t_rows t)) eqn:Hdup.
  { left. by rewrite (create_duplicate _ _ _ _ t). }
  destruct (decide (t_key t = "preprocessed_params_id")) as [Hkey|Hkey].
  { right. exists t. repeat (split; [done|]).
    by apply create_insert. }
  left. unfold create. unfold bind at 1.
  rewrite (check_columns_ok _ _ _ t) by assumption.
  unfold bind at 1. rewrite (exists_run _ _ _ t) by assumption.
  rewrite Hdup. unfold bind. unfold insert_returning. rewrite Ht.
  rewrite decide_True; last first.
  { rewrite dom_insert_L, Hdom. unfold expected_cols. set_solver. }
  rewrite decide_False; [reflexivity|].
  intros Hsub. apply Hkey. symmetry.
  apply (elem_of_singleton (C:=gset string)), Hsub.
  rewrite dom_insert_L, Hdom. unfold expected_cols. set_solver.
Qed.

(** Whatever [create] answers, the database is as before or has one more
    row in the table of the class. *)
Lemma create_state (cls : param_class) (name : string)
    (kwargs : gmap string value) (d : db) :
  (create cls name kwargs d).2 = d
  ∨ ∃ t, d !! _table cls = Some t
       ∧ t_key t = "preprocessed_params_id"
       ∧ dom kwargs = expected_cols t
       ∧ existsb (matches kwargs) (t_rows t) = false
       ∧ (create cls name kwargs d).2
         = <[_table cls := with_row t (new_row t name kwargs)]> d.
Proof.
  destruct (create_effect cls name kwargs d)
    as [?|(t & ? & ? & ? & ? & _ & Hc)]; [by left|right].
  exists t. repeat (split; [done|]).
  rewrite Hc. apply readonly_init.
Qed.

(** *** Value-sets stay unique *)

Section unique.
Variables (t : table) (name : string) (kwargs : gmap string value).
Hypothesis Hkey : t_key t = "preprocessed_params_id".
Hypothesis Hdom : dom kwargs = expected_cols t.
Hypothesis Hnew : existsb (matches kwargs) (t_rows t) = false.

Lemma kwargs_lookup_name : kwargs !! "param_set_name" = None.
Proof using Hdom.
  clear Hkey Hnew.
  apply not_elem_of_dom. rewrite Hdom. unfold expected_cols. set_solver.
Qed.

Lemma kwargs_lookup_key : kwargs !! "preprocessed_params_id" = None.
Proof using Hdom.
  clear Hkey Hnew.
  apply not_elem_of_dom. rewrite Hdom. unfold expected_cols. set_solver.
Qed.

Lemma value_set_new_row : value_set t (new_row t name kwargs) = kwargs.
Proof using Hkey Hdom.
  unfold value_set, new_row. rewrite Hkey. apply map_eq. intros c.
  destruct (decide (c = "preprocessed_params_id")) as [->|Hc].
  { by rewrite lookup_delete_eq, kwargs_lookup_key. }
  rewrite lookup_delete_ne by done.
  destruct (decide (c = "param_set_name")) as [->|Hc'].
  { by rewrite lookup_delete_eq, kwargs_lookup_name. }
  by rewrite lookup_delete_ne, !lookup_insert_ne.
Qed.

Lemma named_value_set_new_row :
  named_value_set t (new_row t name kwargs)
  = <["param_set_name" := VStr name]> kwargs.
Proof using Hkey Hdom.
  unfold named_value_set, new_row. rewrite Hkey, delete_insert_eq.
  apply delete_id. rewrite lookup_insert_ne by done. apply kwargs_lookup_key.
Qed.

Lemma no_row_matches (r : gmap string value) :
  r ∈ t_rows t → ¬ kwargs ⊆ r.
Proof using Hnew.
  intros Hr Hsub. apply not_true_iff_false in Hnew. apply Hnew.
  apply existsb_exists. exists r. split; [by apply list_elem_of_In|].
  by apply matches_spec.
Qed.

Lemma unique_value_sets_with_row :
  unique_value_sets t → unique_value_sets (with_row t (new_row t name kwargs)).
Proof using Hkey Hdom Hnew.
  unfold unique_value_sets, with_row. simpl.
  change (value_set (Table _ _ _)) with (value_set t).
  intros Hnd. rewrite fmap_app. apply NoDup_app. split; [done|split].
  - intros vs (r & -> & Hr)%list_elem_of_fmap Hin.
    apply list_elem_of_singleton in Hin. rewrite value_set_new_row in Hin.
    apply (no_row_matches r Hr). rewrite <-Hin. unfold value_set.
    etrans; apply delete_subseteq.
  - apply NoDup_singleton.
Qed.

Lemma unique_named_value_sets_with_row :
  unique_named_value_sets t
  → unique_named_value_sets (with_row t (new_row t name kwargs)).
Proof using Hkey Hdom Hnew.
  unfold unique_named_value_sets, with_row. simpl.
  change (named_value_set (Table _ _ _)) with (named_value_set t).
  intros Hnd. rewrite fmap_app. apply NoDup_app. split; [done|split].
  - intros vs (r & -> & Hr)%list_elem_of_fmap Hin.
    apply list_elem_of_singleton in Hin.
    rewrite named_value_set_new_row in Hin.
    apply (no_row_matches r Hr). trans (named_value_set t r).
    + rewrite Hin. apply insert_subseteq, kwargs_lookup_name.
    + apply delete_subseteq.
  - apply NoDup_singleton.
Qed.

End unique.

Lemma create_db_unique (cls : param_class) (name : string)
    (kwargs : gmap string value) (d : db) :
  db_unique d → db_unique (create cls name kwargs d).2.
Proof.
  intros Hd.
  destruct (create_state cls name kwargs d)
    as [->|(t & Ht & Hkey & Hdom & Hnew & ->)]; [done|].
  apply map_Forall_insert_2; [|done].
  apply unique_value_sets_with_row; try done. by apply (Hd _ _ Ht).
Qed.

Lemma create_db_unique_named (cls : param_class) (name : string)
    (kwargs : gmap string value) (d : db) :
  db_unique_named d → db_unique_named (create cls name kwargs d).2.
Proof.
  intros Hd.
  destruct (create_state cls name kwargs d)
    as [->|(t & Ht & Hkey & Hdom & Hnew & ->)]; [done|].
  apply map_Forall_insert_2; [|done].
  apply unique_named_value_sets_with_row; try done. by apply (Hd _ _ Ht).
Qed.

(** The same holds when the name counts as part of the value-set. *)
Lemma run_creates_unique_named (calls : list create_call) (d : db) :
  db_unique_named d → db_unique_named (run_creates calls d).
Proof.
  revert d. induction calls as [|[[cls name] kwargs] calls IH]; intros d Hd;
    simpl; [done|].
  by apply IH, create_db_unique_named.
Qed.

(** C6: from a database in which no two rows of a parameter table share a
    value-set (the values in the columns other than the key and the name),
    every sequence of [create] calls, on any classes and with any arguments,
    whether they return or raise, leads to a database in which again no two
    rows of a table share a value-set. *)
Theorem run_creates_unique (calls : list create_call) (d : db) :
  db_unique d → db_unique (run_creates calls d).
Proof.
  revert d. induction calls as [|[[cls name] kwargs] calls IH]; intros d Hd;
    simpl; [done|].
  by apply IH, create_db_unique.
Qed.

(** *** Rows are only ever added *)

Lemma create_raise_state (cls : param_class) (name : string)
    (kwargs : gmap string value) (d : db) (e : exn) :
  (∀ t, d !! _table cls = Some t → t_key t = _column_id cls) →
  (create cls name kwargs d).1 = Raise e →
  (create cls name kwargs d).2 = d.
Proof.
  intros Hsane Hraise.
  destruct (create_effect cls name kwargs d)
    as [?|(t & Ht & Hkey & Hdom & Hnew & (Hn & Hk & Hne) & _)]; [done|].
  assert (Hcol : _column_id cls = "preprocessed_params_id").
  { by rewrite <-(Hsane t Ht). }
  destruct (create_new cls name kwargs d t) as [Hc _]; try done.
  by rewrite Hc in Hraise.
Qed.

Lemma run_call_state (c : call) (d : db) :
  run_call c d = d
  ∨ ∃ cls name kwargs t r,
      c = CallCreate cls name kwargs ∧ d !! _table cls = Some t
      ∧ run_call c d = <[_table cls := with_row t r]> d.
Proof.
  destruct c as [cls kwargs|cls name kwargs|self|self f|self]; simpl.
  - left. apply readonly_exists.
  - destruct (create_state cls name kwargs d)
      as [?|(t & Ht & _ & _ & _ & Hc)]; [by left|right].
    by exists cls, name, kwargs, t, (new_row t name kwargs).
  - left. apply readonly_to_str.
  - left. apply readonly_to_file.
  - left. apply readonly_reference.
Qed.

Lemma run_calls_rows (calls : list call) (d : db) (tbl : string) (t : table) :
  d !! tbl = Some t →
  ∃ rows, run_calls calls d !! tbl
          = Some (Table (t_cols t) (t_key t) (t_rows t ++ rows)).
Proof.
  revert d t. induction calls as [|c calls IH]; intros d t Ht.
  { exists []. rewrite app_nil_r. by destruct t. }
  unfold run_calls. simpl. fold (run_calls calls (run_call c d)).
  destruct (run_call_state c d)
    as [->|(cls & name & kwargs & t' & r & _ & Ht' & ->)]; [by apply IH|].
  destruct (decide (_table cls = tbl)) as [Heq|Hne].
  - rewrite Heq in Ht'. assert (t' = t) as -> by congruence.
    destruct (IH (<[_table cls := with_row t r]> d) (with_row t r))
      as [rows Hrows].
    { by rewrite Heq, lookup_insert_eq. }
    exists (r :: rows). rewrite Hrows. simpl. by rewrite <-app_assoc.
  - apply IH. by rewrite lookup_insert_ne.
Qed.

(** C7: [exists], [to_str], [to_file] and [reference] hand every table
    back as they found it; a call of [create] leaves the database as it was
    or adds one row to the table of its class, and where the table's key is
    the id column of the class it leaves the database as it was whenever it
    raises; so after any sequence of calls every table holds the rows it
    held, unchanged and in their places, followed by the rows inserted
    since. *)
Theorem accessor_frame :
  (∀ cls kwargs, readonly (exists_ cls kwargs))
  ∧ (∀ self, readonly (to_str self))
  ∧ (∀ self f, readonly (to_file self f))
  ∧ (∀ self, readonly (reference self))
  ∧ (∀ cls name kwargs d,
       (create cls name kwargs d).2 = d
       ∨ ∃ t r, d !! _table cls = Some t
           ∧ (create cls name kwargs d).2 = <[_table cls := with_row t r]> d)
  ∧ (∀ cls name kwargs d e,
       (∀ t, d !! _table cls = Some t → t_key t = _column_id cls) →
       (create cls name kwargs d).1 = Raise e →
       (create cls name kwargs d).2 = d)
  ∧ (∀ calls d tbl t,
       d !! tbl = Some t →
       ∃ rows, run_calls calls d !! tbl
               = Some (Table (t_cols t) (t_key t) (t_rows t ++ rows))).
Proof.
  split; [exact readonly_exists|]. split; [exact readonly_to_str|].
  split; [exact readonly_to_file|]. split; [exact readonly_reference|].
  split; [|split; [exact create_raise_state|exact run_calls_rows]].
  intros cls name kwargs d.
  destruct (create_state cls name kwargs d)
    as [?|(t & Ht & _ & _ & _ & Hc)]; [by left|right].
  by exists t, (new_row t name kwargs).
Qed.

(** *** Rendering an existing instance *)

Lemma existing_inv (self : params) (d : db) :
  existing self d →
  ∃ t r, d !! _table (cls_of self) = Some t
    ∧ _column_id (cls_of self) ∈ col_names t
    ∧ row_of self d = Some r
    ∧ r ∈ t_rows t
    ∧ r !! _column_id (cls_of self) = Some (id self).
Proof.
  unfold existing, _check_id, select_exists, row_of.
  destruct (d !! _table (cls_of self)) as [t|]; [|discriminate]. simpl.
  destruct (decide (_ = ∅)); [discriminate|].
  destruct (decide (_ ⊆ _)) as [Hsub|]; [|discriminate].
  intros [= Hex]. apply existsb_find in Hex as (r & Hfind & Hr & Hm).
  exists t, r. split; [done|]. split; [|split; [done|split; [done|]]].
  - apply Hsub. rewrite dom_singleton_L. by apply elem_of_singleton.
  - by apply matches_singleton.
Qed.

Lemma get_values_as_dict_run (self : params) (d : db) (t : table)
    (r : gmap string value) :
  d !! _table (cls_of self) = Some t →
  _column_id (cls_of self) ∈ col_names t →
  row_of self d = Some r →
  _get_values_as_dict self d = (Return r, d).
Proof.
  intros Ht Hcol Hrow. unfold row_of in Hrow. rewrite Ht in Hrow.
  simpl in Hrow. unfold _get_values_as_dict, bind, select_row.
  by rewrite Ht, decide_True, Hrow.
Qed.

Lemma to_str_loop_run (ignore_cols : gset string) (values : gmap string value)
    (table_cols : list (string * string)) (result : list string) (d : db) :
  (∀ c, c ∈ table_cols → is_Some (values !! c.1)) →
  to_str_loop ignore_cols values table_cols result d
  = (Return (result ++ concat (flag_of values
               <$> filter (λ c, c.1 ∉ ignore_cols) table_cols)), d).
Proof.
  revert result. induction table_cols as [|[p_name p_type] rest IH];
    intros result Hall; simpl.
  { by rewrite app_nil_r. }
  assert (Hrest : ∀ c, c ∈ rest → is_Some (values !! c.1)).
  { intros c Hc. apply Hall. by right. }
  rewrite filter_cons. simpl.
  destruct (decide (p_name ∈ ignore_cols)) as [Hi|Hi].
  { rewrite decide_False by (by intros ?). by apply IH. }
  rewrite (decide_True (P := p_name ∉ ignore_cols)) by done.
  destruct (Hall (p_name, p_type)) as [v Hv]; [left|]. simpl in Hv.
  rewrite fmap_cons. simpl. unfold flag_of at 1. simpl. rewrite Hv.
  unfold bind, getitem. rewrite Hv. unfold ret.
  destruct (decide (p_type = "boolean")).
  - destruct (truthy v); rewrite IH by done; [|done].
    by rewrite <-app_assoc.
  - rewrite IH by done. by rewrite <-app_assoc.
Qed.

(** C4: for an existing instance of any class, on a table that lists its
    id column as a [bigint], [to_str] returns the flags of the columns
    other than the id column and the ignored columns, in ascending order of
    column name and joined by single spaces: a boolean column gives the
    bare flag when its stored value is true and nothing otherwise, any
    other column the flag followed by its value. *)
Theorem to_str_spec (self : params) (d : db) (t : table) :
  d !! _table (cls_of self) = Some t →
  table_wf t →
  (_column_id (cls_of self), "bigint") ∈ t_cols t →
  existing self d →
  ∃ (r : gmap string value) (cols : list (string * string)),
    row_of self d = Some r
    ∧ to_str self d = (Return (join " " (concat (flag_of r <$> cols))), d)
    ∧ cols ≡ₚ filter (λ c, (c.1 ≠ _column_id (cls_of self))
                           ∧ (c.1 ∉ _ignore_cols (cls_of self))) (t_cols t)
    ∧ StronglySorted (λ a b, String.le a.1 b.1) cols.
Proof.
  intros Ht [Hnd Hrows] Hid (t' & r & Ht' & Hcol & Hrow & Hr & _)%existing_inv.
  assert (t' = t) as -> by congruence.
  set (cls := cls_of self) in *.
  set (removed := filter (λ c : string * string, c.1 ≠ _column_id cls) (t_cols t)).
  exists r, (filter (λ c, c.1 ∉ _ignore_cols cls) (sorted_pairs removed)).
  split; [done|]. split; [|split].
  - unfold to_str. fold cls. unfold bind at 1, get_table_cols_w_type.
    rewrite Ht. unfold bind at 1, list_remove.
    rewrite (list_remove_first_columns _ _ Hnd Hid). simpl. fold removed.
    unfold ret at 1. unfold bind at 1.
    rewrite (get_values_as_dict_run self d t r) by done.
    unfold bind. rewrite to_str_loop_run; [done|].
    intros c Hc. apply elem_of_dom.
    rewrite Forall_forall in Hrows. rewrite (Hrows r Hr).
    unfold sorted_pairs in Hc. rewrite merge_sort_Permutation in Hc.
    apply list_elem_of_filter in Hc as [_ Hc].
    apply elem_of_list_to_set. by apply list_elem_of_fmap_2.
  - unfold sorted_pairs. rewrite merge_sort_Permutation.
    unfold removed. rewrite list_filter_filter.
    erewrite list_filter_iff; [done|]. intros c. simpl. tauto.
  - apply StronglySorted_filter.
    apply (StronglySorted_weaken pair_le); [exact pair_le_fst|].
    apply StronglySorted_merge_sort; apply _.
Qed.

Lemma to_file_loop_run (ignore_cols : gset string)
    (items : list (string * value)) (f : file) :
  to_file_loop ignore_cols items f
  = f ++ (line_of <$> filter (λ kv, kv.1 ∉ ignore_cols) items).
Proof.
  revert f. induction items as [|[key v] rest IH]; intros f; simpl.
  { by rewrite app_nil_r. }
  rewrite filter_cons. simpl.
  destruct (decide (key ∈ ignore_cols)) as [Hi|Hi].
  - rewrite decide_False by (by intros ?). apply IH.
  - rewrite decide_True by done. rewrite IH. unfold write.
    by rewrite <-app_assoc.
Qed.

(** [to_file] on an existing instance of any class. *)
Lemma to_file_run (self : params) (f : file) (d : db) :
  existing self d →
  ∃ (r : gmap string value) (items : list (string * value)),
    row_of self d = Some r
    ∧ to_file self f d
      = (Return (f ++ ("pick_otus:otu_picking_method" +:+ TAB +:+ "sortmerna" +:+ NL)
                   :: (line_of <$> items)), d)
    ∧ items ≡ₚ map_to_list
                 (filter (λ kv, (kv.1 ≠ _column_id (cls_of self))
                                ∧ (kv.1 ∉ _ignore_cols (cls_of self))) r)
    ∧ StronglySorted key_le items.
Proof.
  intros (t & r & Ht & Hcol & Hrow & Hr & Hid)%existing_inv.
  set (cls := cls_of self) in *.
  set (sorted_values := sorted_items (map_to_list (delete (_column_id cls) r))).
  exists r, (filter (λ kv, kv.1 ∉ _ignore_cols cls) sorted_values).
  split; [done|]. split; [|split].
  - unfold to_file. fold cls. unfold bind at 1.
    rewrite (get_values_as_dict_run self d t r) by done.
    unfold bind, delitem. rewrite Hid. unfold ret.
    fold sorted_values. rewrite to_file_loop_run. unfold write.
    by rewrite <-app_assoc.
  - apply NoDup_Permutation.
    + apply NoDup_filter. unfold sorted_values, sorted_items.
      rewrite merge_sort_Permutation. apply NoDup_map_to_list.
    + apply NoDup_map_to_list.
    + intros [k v]. rewrite list_elem_of_filter. unfold sorted_values, sorted_items.
      rewrite merge_sort_Permutation, !elem_of_map_to_list.
      rewrite map_lookup_filter_Some, lookup_delete_Some. simpl.
      intuition congruence.
  - apply StronglySorted_filter. unfold sorted_values, sorted_items.
    apply StronglySorted_merge_sort; apply _.
Qed.

(** C5: for an existing [ProcessedSortmernaParams] instance, [to_file]
    appends to the file first the line of the picking method and then, in
    ascending order of their keys, one line [pick_otus:<key> TAB <value>]
    for each column the row stores other than [processed_params_id] and
    [reference_id], each line ended by a newline. *)
Theorem sortmerna_to_file (id_ : value) (f : file) (d : db) :
  existing (Params ProcessedSortmernaParams id_) d →
  ∃ (r : gmap string value) (items : list (string * value)),
    row_of (Params ProcessedSortmernaParams id_) d = Some r
    ∧ to_file (Params ProcessedSortmernaParams id_) f d
      = (Return (f ++ ("pick_otus:otu_picking_method" +:+ TAB +:+ "sortmerna" +:+ NL)
                   :: ((λ kv, "pick_otus:" +:+ kv.1 +:+ TAB +:+ str kv.2 +:+ NL)
                         <$> items)), d)
    ∧ items ≡ₚ map_to_list
                 (filter (λ kv, (kv.1 ≠ "processed_params_id")
                                ∧ (kv.1 ≠ "reference_id")) r)
    ∧ StronglySorted (λ a b, String.le a.1 b.1) items.
Proof.
  intros (r & items & Hrow & Hrun & Hperm & Hsorted)%(to_file_run _ f).
  exists r, items. split; [done|]. split; [done|]. split; [|done].
  rewrite Hperm. simpl. f_equiv. apply map_filter_ext.
  intros k v _. simpl. rewrite not_elem_of_singleton. tauto.
Qed.

(** *** The hard-wired key column *)

(** [_check_columns] removes the column named [preprocessed_params_id]
    whatever the id column of the class is: on a table without a column of
    that name, [exists] and [create] raise a [KeyError] before they look at
    their keyword arguments. *)
Lemma check_columns_hardwired (cls : param_class) (kwargs : gmap string value)
    (d : db) (t : table) :
  d !! _table cls = Some t →
  "preprocessed_params_id" ∉ col_names t →
  ∃ k, _check_columns cls kwargs d = (Raise (KeyError k), d)
     ∧ ∀ name, exists_ cls kwargs d = (Raise (KeyError k), d)
               ∧ create cls name kwargs d = (Raise (KeyError k), d).
Proof.
  intros Ht Hk.
  assert (∃ k, _check_columns cls kwargs d = (Raise (KeyError k), d))
    as [k Hc].
  { rewrite check_columns_run, Ht.
    destruct (decide ("param_set_name" ∈ col_names t)); [|by eexists].
    rewrite decide_False by done. by eexists. }
  exists k. split; [done|]. intros name. split.
  - unfold exists_. unfold bind at 1. by rewrite Hc.
  - unfold create. unfold bind at 1. by rewrite Hc.
Qed.

(** On a table that has the two columns [_check_columns] names, a call
    that leaves out an expected column raises the [ValueError] that lists
    the columns left out, and a call that leaves none out but adds columns
    the [ValueError] that lists the columns added. *)
Lemma check_columns_mismatch (cls : param_class) (name : string)
    (kwargs : gmap string value) (d : db) (t : table) :
  d !! _table cls = Some t →
  "param_set_name" ∈ col_names t →
  "preprocessed_params_id" ∈ col_names t →
  dom kwargs ≠ expected_cols t →
  ∃ e, exists_ cls kwargs d = (Raise (ValueError e), d)
     ∧ create cls name kwargs d = (Raise (ValueError e), d)
     ∧ (e = MissingColumns (expected_cols t ∖ dom kwargs)
          ∧ expected_cols t ∖ dom kwargs ≠ ∅
        ∨ e = ExtraColumns (dom kwargs ∖ expected_cols t)
          ∧ expected_cols t ⊆ dom kwargs
          ∧ dom kwargs ∖ expected_cols t ≠ ∅).
Proof.
  intros Ht Hn Hk Hdom.
  assert (∃ e, _check_columns cls kwargs d = (Raise (ValueError e), d)
     ∧ (e = MissingColumns (expected_cols t ∖ dom kwargs)
          ∧ expected_cols t ∖ dom kwargs ≠ ∅
        ∨ e = ExtraColumns (dom kwargs ∖ expected_cols t)
          ∧ expected_cols t ⊆ dom kwargs
          ∧ dom kwargs ∖ expected_cols t ≠ ∅)) as (e & Hc & He).
  { rewrite check_columns_run, Ht, !decide_True by done.
    destruct (decide (expected_cols t ∖ dom kwargs ≠ ∅)) as [Hm|Hm].
    { eexists. split; [done|]. by left. }
    assert (Hsub : expected_cols t ⊆ dom kwargs).
    { assert (Hm' : expected_cols t ∖ dom kwargs = ∅) by (by apply dec_stable).
      intros c Hc. destruct (decide (c ∈ dom kwargs)) as [|Hnc]; [done|].
      exfalso. apply (not_elem_of_empty (C:=gset string) c).
      rewrite <-Hm'. by apply elem_of_difference. }
    assert (Hextra : dom kwargs ∖ expected_cols t ≠ ∅).
    { intros He. apply Hdom. apply set_eq. intros c. split; [|apply Hsub].
      intros Hc. destruct (decide (c ∈ expected_cols t)) as [|Hnc]; [done|].
      exfalso. apply (not_elem_of_empty (C:=gset string) c).
      rewrite <-He. by apply elem_of_difference. }
    rewrite decide_True by done. eexists. split; [done|]. by right. }
  exists e. split; [|split; [|done]].
  - unfold exists_. unfold bind at 1. by rewrite Hc.
  - unfold create. unfold bind at 1. by rewrite Hc.
Qed.

(** C1, on the example database: the SortMeRNA table holds a row with
    exactly the given values, and [create] on [ProcessedSortmernaParams]
    raises the [KeyError] of the hard-wired key column, not the duplicate
    error; the table is left as it was. *)
Theorem sortmerna_create_duplicate_raises_KeyError :
  existsb (matches sortmerna_defaults) (t_rows sortmerna_table) = true
  ∧ dom sortmerna_defaults
    = col_names sortmerna_table ∖ {["param_set_name"]}
                                ∖ {[_column_id ProcessedSortmernaParams]}
  ∧ create ProcessedSortmernaParams "Copy" sortmerna_defaults example_db
    = (Raise (KeyError "preprocessed_params_id"), example_db).
Proof. split; [|split]; compute_done. Qed.

(** C2, on the example database: a call of [exists] or [create] on
    [ProcessedSortmernaParams] that leaves the column [threads] out raises
    the [KeyError] of the hard-wired key column, not the [ValueError] that
    names [threads]. *)
Theorem sortmerna_missing_column_raises_KeyError :
  col_names sortmerna_table ∖ {["param_set_name"]}
      ∖ {[_column_id ProcessedSortmernaParams]}
      ∖ dom sortmerna_incomplete = {["threads"]}
  ∧ exists_ ProcessedSortmernaParams sortmerna_incomplete example_db
    = (Raise (KeyError "preprocessed_params_id"), example_db)
  ∧ create ProcessedSortmernaParams "Fast" sortmerna_incomplete example_db
    = (Raise (KeyError "preprocessed_params_id"), example_db).
Proof. split; [|split]; compute_done. Qed.

(** C3, on the example database: no row of the SortMeRNA table holds the
    given values, and [create] on [ProcessedSortmernaParams] raises the
    [KeyError] of the hard-wired key column: nothing is inserted and no
    handle is returned. *)
Theorem sortmerna_create_new_raises_KeyError :
  existsb (matches sortmerna_other) (t_rows sortmerna_table) = false
  ∧ dom sortmerna_other
    = col_names sortmerna_table ∖ {["param_set_name"]}
                                ∖ {[_column_id ProcessedSortmernaParams]}
  ∧ create ProcessedSortmernaParams "Threads" sortmerna_other example_db
    = (Raise (KeyError "preprocessed_params_id"), example_db).
Proof. split; [|split]; compute_done. Qed.

(** *** The statements at work on the example database *)

Example illumina_create_duplicate :
  create PreprocessedIlluminaParams "Copy" illumina_defaults example_db
  = (Raise (QiitaDBDuplicateError "PreprocessedIlluminaParams" illumina_defaults),
     example_db).
Proof.
  apply (create_duplicate PreprocessedIlluminaParams "Copy" illumina_defaults
           example_db illumina_table); compute_done.
Qed.

Example illumina_create_new :
  let d' := <["preprocessed_sequence_illumina_params" :=
                with_row illumina_table
                  (new_row illumina_table "Other" illumina_other)]> example_db in
  create PreprocessedIlluminaParams "Other" illumina_other example_db
  = (Return (Params PreprocessedIlluminaParams (VInt 2)), d')
  ∧ new_row illumina_table "Other" illumina_other !! "preprocessed_params_id"
    = Some (VInt 2)
  ∧ exists_ PreprocessedIlluminaParams illumina_other d' = (Return true, d').
Proof.
  apply (create_new PreprocessedIlluminaParams "Other" illumina_other
           example_db illumina_table); compute_done.
Qed.

Example illumina_missing_column :
  exists_ PreprocessedIlluminaParams (delete "rev_comp" illumina_defaults)
    example_db
  = (Raise (ValueError (MissingColumns {["rev_comp"]})), example_db).
Proof. compute_done. Qed.

Example illumina_extra_column :
  exists_ PreprocessedIlluminaParams (<["trim" := VInt 1]> illumina_defaults)
    example_db
  = (Raise (ValueError (ExtraColumns {["trim"]})), example_db).
Proof. compute_done. Qed.

Example illumina_to_str :
  to_str (Params PreprocessedIlluminaParams (VInt 1)) example_db
  = (Return "--barcode_type golay_12 --max_bad_run_length 3 --rev_comp_barcode",
     example_db).
Proof. compute_done. Qed.

Example sortmerna_to_file_example :
  to_file (Params ProcessedSortmernaParams (VInt 1)) [] example_db
  = (Return ["pick_otus:otu_picking_method" +:+ TAB +:+ "sortmerna" +:+ NL;
             "pick_otus:max_pos" +:+ TAB +:+ "10000" +:+ NL;
             "pick_otus:param_set_name" +:+ TAB +:+ "Default" +:+ NL;
             "pick_otus:threads" +:+ TAB +:+ "1" +:+ NL],
     example_db).
Proof. compute_done. Qed.

Lemma to_str_spec_witness :
  (example_db !! _table PreprocessedIlluminaParams = Some illumina_table
   ∧ table_wf illumina_table
   ∧ (_column_id PreprocessedIlluminaParams, "bigint") ∈ t_cols illumina_table
   ∧ existing (Params PreprocessedIlluminaParams (VInt 1)) example_db)
  ∧ ∃ (r : gmap string value) (cols : list (string * string)),
      row_of (Params PreprocessedIlluminaParams (VInt 1)) example_db = Some r
      ∧ to_str (Params PreprocessedIlluminaParams (VInt 1)) example_db
        = (Return (join " " (concat (flag_of r <$> cols))), example_db)
      ∧ cols ≡ₚ filter (λ c, (c.1 ≠ _column_id PreprocessedIlluminaParams)
                             ∧ (c.1 ∉ _ignore_cols PreprocessedIlluminaParams))
                  (t_cols illumina_table)
      ∧ StronglySorted (λ a b, String.le a.1 b.1) cols.
Proof.
  assert (H1 : example_db !! _table PreprocessedIlluminaParams = Some illumina_table)
    by compute_done.
  assert (H2 : table_wf illumina_table) by (split; compute_done).
  assert (H3 : (_column_id PreprocessedIlluminaParams, "bigint") ∈ t_cols illumina_table)
    by compute_done.
  assert (H4 : existing (Params PreprocessedIlluminaParams (VInt 1)) example_db) by compute_done.
  split; [exact (conj H1 (conj H2 (conj H3 H4)))|].
  exact (to_str_spec (Params PreprocessedIlluminaParams (VInt 1)) example_db illumina_table H1 H2 H3 H4).
Defined.

Lemma sortmerna_to_file_witness :
  existing (Params ProcessedSortmernaParams (VInt 1)) example_db
  ∧ ∃ (r : gmap string value) (items : list (string * value)),
      row_of (Params ProcessedSortmernaParams (VInt 1)) example_db = Some r
      ∧ to_file (Params ProcessedSortmernaParams (VInt 1)) [] example_db
        = (Return ([] ++ ("pick_otus:otu_picking_method" +:+ TAB +:+ "sortmerna" +:+ NL)
                     :: ((λ kv, "pick_otus:" +:+ kv.1 +:+ TAB +:+ str kv.2 +:+ NL)
                           <$> items)), example_db)
      ∧ items ≡ₚ map_to_list
                   (filter (λ kv, (kv.1 ≠ "processed_params_id")
                                  ∧ (kv.1 ≠ "reference_id")) r)
      ∧ StronglySorted (λ a b, String.le a.1 b.1) items.
Proof.
  assert (H : existing (Params ProcessedSortmernaParams (VInt 1)) example_db)
    by compute_done.
  split; [exact H|].
  exact (sortmerna_to_file (VInt 1) [] example_db H).
Defined.

Lemma run_creates_unique_witness :
  db_unique example_db
  ∧ db_unique
      (run_creates
         [(PreprocessedIlluminaParams, "Copy", illumina_defaults);
          (PreprocessedIlluminaParams, "Other", illumina_other);
          (PreprocessedIlluminaParams, "Again", illumina_other);
          (ProcessedSortmernaParams, "Threads", sortmerna_other)]
         example_db).
Proof.
  assert (H : db_unique example_db).
  { unfold db_unique, example_db.
    apply map_Forall_insert_2; [|apply map_Forall_singleton];
      unfold unique_value_sets; compute_done. }
  split; [exact H|].
  exact (run_creates_unique _ example_db H).
Defined.

End ParametersSpec.

(** ** More on parameter sets *)

Module ParametersMore.
Import Facts ParametersSpec.

(** *** The column check *)

Lemma check_columns_inv (cls : param_class) (kwargs : gmap string value)
    (d : db) :
  _check_columns cls kwargs d = (Return (), d) →
  ∃ t, d !! _table cls = Some t
     ∧ "param_set_name" ∈ col_names t
     ∧ "preprocessed_params_id" ∈ col_names t
     ∧ dom kwargs = expected_cols t.
Proof.
  rewrite check_columns_run.
  destruct (d !! _table cls) as [t|]; [|discriminate].
  destruct (decide ("param_set_name" ∈ col_names t)); [|discriminate].
  destruct (decide ("preprocessed_params_id" ∈ col_names t)); [|discriminate].
  destruct (decide (expected_cols t ∖ dom kwargs ≠ ∅)) as [|Hm]; [discriminate|].
  destruct (decide (dom kwargs ∖ expected_cols t ≠ ∅)) as [|He]; [discriminate|].
  intros _. exists t. repeat (split; [done|]).
  assert (Hm' : expected_cols t ∖ dom kwargs = ∅) by (by apply dec_stable).
  assert (He' : dom kwargs ∖ expected_cols t = ∅) by (by apply dec_stable).
  apply set_eq. intros c. split; intros Hc.
  - destruct (decide (c ∈ expected_cols t)) as [|Hn]; [done|].
    exfalso. apply (not_elem_of_empty (C:=gset string) c).
    rewrite <-He'. by apply elem_of_difference.
  - destruct (decide (c ∈ dom kwargs)) as [|Hn]; [done|].
    exfalso. apply (not_elem_of_empty (C:=gset string) c).
    rewrite <-Hm'. by apply elem_of_difference.
Qed.

(** The column check lets a call through exactly when the table has the
    two columns it removes and the keyword arguments name the remaining
    columns, no fewer and no more. *)
Theorem check_columns_accepts_iff (cls : param_class)
    (kwargs : gmap string value) (d : db) :
  _check_columns cls kwargs d = (Return (), d)
  ↔ ∃ t, d !! _table cls = Some t
       ∧ "param_set_name" ∈ col_names t
       ∧ "preprocessed_params_id" ∈ col_names t
       ∧ dom kwargs = expected_cols t.
Proof.
  split; [apply check_columns_inv|].
  intros (t & Ht & Hn & Hk & Hdom). by apply (check_columns_ok _ _ _ t).
Qed.

(** When an expected column is left out, the error lists exactly the
    columns left out, whatever columns the call adds: the added ones are
    not reported. *)
Theorem check_columns_missing_first (cls : param_class)
    (kwargs : gmap string value) (d : db) (t : table) (c : string) :
  d !! _table cls = Some t →
  "param_set_name" ∈ col_names t →
  "preprocessed_params_id" ∈ col_names t →
  c ∈ expected_cols t → c ∉ dom kwargs →
  _check_columns cls kwargs d
  = (Raise (ValueError (MissingColumns (expected_cols t ∖ dom kwargs))), d).
Proof.
  intros Ht Hn Hk Hc Hnc. rewrite check_columns_run, Ht.
  rewrite !decide_True; [done| |done|done].
  intros Hempty. apply (not_elem_of_empty (C:=gset string) c).
  rewrite <-Hempty. by apply elem_of_difference.
Qed.

(** *** Two calls of [create] *)

(** [create] raises and leaves the database as it was, or inserts one row
    and then builds the handle. *)
Lemma create_cases (cls : param_class) (name : string)
    (kwargs : gmap string value) (d : db) :
  (∃ e, create cls name kwargs d = (Raise e, d))
  ∨ ∃ t, d !! _table cls = Some t
       ∧ t_key t = "preprocessed_params_id"
       ∧ dom kwargs = expected_cols t
       ∧ existsb (matches kwargs) (t_rows t) = false
       ∧ ("param_set_name" ∈ col_names t
          ∧ "preprocessed_params_id" ∈ col_names t ∧ kwargs ≠ ∅)
       ∧ create cls name kwargs d
         = __init__ cls (VInt (fresh_key t))
             (<[_table cls := with_row t (new_row t name kwargs)]> d).
Proof.
  destruct (d !! _table cls) as [t|] eqn:Ht.
  2: { left. eexists. unfold create. unfold bind at 1.
       by rewrite check_columns_run, Ht. }
  destruct (_check_columns cls kwargs d) as [[[]|e] d'] eqn:Hc.
  2: { left. exists e. unfold create. unfold bind at 1. rewrite Hc.
       pose proof (readonly_check_columns cls kwargs d) as Hro.
       rewrite Hc in Hro. simpl in Hro. by subst d'. }
  assert (d' = d) as ->.
  { pose proof (readonly_check_columns cls kwargs d) as Hro.
    by rewrite Hc in Hro. }
  apply check_columns_inv in Hc as (t' & Ht' & Hn & Hk & Hdom).
  assert (t' = t) as -> by congruence.
  destruct (decide (kwargs = ∅)) as [Hempty|Hne].
  { left. eexists. unfold create. unfold bind at 1.
    rewrite (check_columns_ok _ _ _ t) by assumption.
    unfold bind at 1. unfold exists_. unfold bind at 1.
    rewrite (check_columns_ok _ _ _ t) by assumption.
    unfold select_exists. by rewrite Ht, decide_True. }
  destruct (existsb (matches kwargs) (t_rows t)) eqn:Hdup.
  { left. eexists. by rewrite (create_duplicate _ _ _ _ t). }
  destruct (decide (t_key t = "preprocessed_params_id")) as [Hkey|Hkey].
  { right. exists t. repeat (split; [done|]). by apply create_insert. }
  left. eexists. unfold create. unfold bind at 1.
  rewrite (check_columns_ok _ _ _ t) by assumption.
  unfold bind at 1. rewrite (exists_run _ _ _ t) by assumption.
  rewrite Hdup. unfold bind. unfold insert_returning. rewrite Ht.
  rewrite decide_True; last first.
  { rewrite dom_insert_L, Hdom. unfold expected_cols. set_solver. }
  rewrite decide_False; [reflexivity|].
  intros Hsub. apply Hkey. symmetry.
  apply (elem_of_singleton (C:=gset string)), Hsub.
  rewrite dom_insert_L, Hdom. unfold expected_cols. set_solver.
Qed.

(** After a call of [create] that returned a handle, a call with the same
    values raises the duplicate error, under the same name or any other,
    and inserts nothing. *)
Theorem create_twice (cls : param_class) (name name' : string)
    (kwargs : gmap string value) (d d' : db) (self : params) :
  create cls name kwargs d = (Return self, d') →
  create cls name' kwargs d'
  = (Raise (QiitaDBDuplicateError (__name__ cls) kwargs), d').
Proof.
  intros Hcreate.
  destruct (create_cases cls name kwargs d)
    as [[e He]|(t & Ht & Hkey & Hdom & Hnew & (Hn & Hk & Hne) & Hc)].
  { rewrite He in Hcreate. discriminate. }
  assert (d' = <[_table cls := with_row t (new_row t name kwargs)]> d) as ->.
  { pose proof (readonly_init cls (VInt (fresh_key t))
      (<[_table cls := with_row t (new_row t name kwargs)]> d)) as Hro.
    rewrite <-Hc, Hcreate in Hro. done. }
  apply (create_duplicate _ _ _ _ (with_row t (new_row t name kwargs)));
    try done.
  - by rewrite lookup_insert_eq.
  - simpl. rewrite existsb_app. simpl.
    rewrite new_row_matches by done. apply orb_true_r.
Qed.

(** *** Well-formed tables stay well formed *)

Lemma new_row_dom (t : table) (name : string) (kwargs : gmap string value) :
  t_key t = "preprocessed_params_id" →
  "param_set_name" ∈ col_names t →
  "preprocessed_params_id" ∈ col_names t →
  dom kwargs = expected_cols t →
  dom (new_row t name kwargs) = col_names t.
Proof.
  intros Hkey Hn Hk Hdom. unfold new_row.
  rewrite !dom_insert_L, Hdom, Hkey. unfold expected_cols.
  apply set_eq. intros c.
  rewrite !elem_of_union, !elem_of_singleton, !elem_of_difference,
    !elem_of_singleton.
  destruct (decide (c = "preprocessed_params_id")) as [->|]; [tauto|].
  destruct (decide (c = "param_set_name")) as [->|]; tauto.
Qed.

Lemma run_call_wf (c : call) (d : db) : db_wf d → db_wf (run_call c d).
Proof.
  intros Hd.
  destruct c as [cls kwargs|cls name kwargs|self|self f|self]; simpl.
  - by rewrite readonly_exists.
  - destruct (create_cases cls name kwargs d)
      as [[e ->]|(t & Ht & Hkey & Hdom & _ & (Hn & Hk & _) & ->)]; [done|].
    rewrite readonly_init. apply map_Forall_insert_2; [|done].
    destruct (Hd _ _ Ht) as [Hnd Hrows]. split; [done|].
    change (col_names (with_row t (new_row t name kwargs)))
      with (col_names t). simpl.
    apply Forall_app. split; [done|]. apply Forall_singleton.
    by apply new_row_dom.
  - by rewrite readonly_to_str.
  - by rewrite readonly_to_file.
  - by rewrite readonly_reference.
Qed.

(** Whatever calls are made, and whether they return or raise, a database
    in which every row holds a value for each column of its table and for
    nothing else stays such a database: a row [create] inserts is
    complete. *)
Theorem run_calls_wf (calls : list call) (d : db) :
  db_wf d → db_wf (run_calls calls d).
Proof.
  revert d. induction calls as [|c calls IH]; intros d Hd; [done|].
  unfold run_calls. simpl. apply IH. by apply run_call_wf.
Qed.

(** *** Parameter sets last *)

Lemma find_app_Some {A} (p : A → bool) (l k : list A) (x : A) :
  find p l = Some x → find p (l ++ k) = Some x.
Proof.
  induction l as [|y l IH]; simpl; [discriminate|].
  destruct (p y); [done|]. apply IH.
Qed.

Lemma to_str_loop_state (ignore_cols : gset string)
    (values : gmap string value) (table_cols : list (string * string))
    (result : list string) (d1 d2 : db) :
  (to_str_loop ignore_cols values table_cols result d1).1
  = (to_str_loop ignore_cols values table_cols result d2).1.
Proof.
  revert result. induction table_cols as [|[p_name p_type] rest IH];
    intros result; simpl; [done|].
  destruct (decide (p_name ∈ ignore_cols)); [apply IH|].
  unfold bind, getitem.
  destruct (values !! p_name) as [v|]; simpl.
  2: { by destruct (decide (p_type = "boolean")). }
  destruct (decide (p_type = "boolean")); [|apply IH].
  destruct (truthy v); apply IH.
Qed.

(** What the three readers answer depends on the table of the class only
    through its columns and the row the id selects. *)
Lemma readers_congr (self : params) (d1 d2 : db) (t1 t2 : table) :
  d1 !! _table (cls_of self) = Some t1 →
  d2 !! _table (cls_of self) = Some t2 →
  t_cols t1 = t_cols t2 →
  row_of self d1 = row_of self d2 →
  (to_str self d1).1 = (to_str self d2).1
  ∧ (∀ f, (to_file self f d1).1 = (to_file self f d2).1)
  ∧ (reference self d1).1 = (reference self d2).1.
Proof.
  intros H1 H2 Hcols Hrow. unfold row_of in Hrow. rewrite H1, H2 in Hrow.
  simpl in Hrow.
  assert (Hnames : col_names t1 = col_names t2).
  { unfold col_names. by rewrite Hcols. }
  assert (Hget : (_get_values_as_dict self d1).1 = (_get_values_as_dict self d2).1
                 ∧ (_get_values_as_dict self d1).2 = d1
                 ∧ (_get_values_as_dict self d2).2 = d2).
  { split; [|split; apply readonly_get_values_as_dict].
    unfold _get_values_as_dict, bind, select_row. rewrite H1, H2, Hnames, Hrow.
    destruct (decide (_ ∈ col_names t2)); [|done].
    by destruct (find _ (t_rows t2)). }
  destruct Hget as (Hget & Hs1 & Hs2).
  assert (Hstr : ∀ d t, d !! _table (cls_of self) = Some t →
    (_get_values_as_dict self d).2 = d →
    (to_str self d).1
    = match list_remove_first (_column_id (cls_of self), "bigint") (t_cols t) with
      | None => Raise (ValueError NotInList)
      | Some removed =>
          match (_get_values_as_dict self d).1 with
          | Raise e => Raise e
          | Return r =>
              match (to_str_loop (_ignore_cols (cls_of self)) r
                       (sorted_pairs removed) [] ∅).1 with
              | Return l => Return (join " " l)
              | Raise e => Raise e
              end
          end
      end).
  { intros d t Ht Hs. unfold to_str. unfold bind at 1, get_table_cols_w_type.
    rewrite Ht. unfold bind at 1, list_remove.
    destruct (list_remove_first _ (t_cols t)) as [removed|]; [|done].
    unfold ret at 1. unfold bind at 1.
    destruct (_get_values_as_dict self d) as [[r|e] s]; [|done].
    simpl in Hs. subst s. unfold bind, ret. simpl.
    pose proof (to_str_loop_state (_ignore_cols (cls_of self)) r
                  (sorted_pairs removed) [] d ∅) as Hloop.
    destruct (to_str_loop _ r _ [] d) as [[l1|e1] s1],
      (to_str_loop _ r _ [] ∅) as [[l2|e2] s2]; simpl in *; congruence. }
  split; [|split].
  - rewrite (Hstr d1 t1), (Hstr d2 t2) by done. by rewrite Hcols, Hget.
  - intros f. unfold to_file. unfold bind at 1 3.
    destruct (_get_values_as_dict self d1) as [[r1|e1] s1],
      (_get_values_as_dict self d2) as [[r2|e2] s2]; simpl in *;
      simplify_eq; [|done].
    unfold bind, delitem. by destruct (r2 !! _column_id (cls_of self)).
  - unfold reference, bind, select_field. rewrite H1, H2, Hnames, Hrow.
    destruct (decide (_ ∧ _)); [|done]. simpl.
    by destruct (find _ (t_rows t2) ≫= _).
Qed.

(** An existing instance stays one whatever calls follow, it keeps its
    row, and [to_str], [to_file] and [reference] keep answering what they
    answered: a parameter set, once created, does not change. *)
Theorem existing_persists (self : params) (calls : list call) (d : db) :
  existing self d →
  existing self (run_calls calls d)
  ∧ row_of self (run_calls calls d) = row_of self d
  ∧ (to_str self (run_calls calls d)).1 = (to_str self d).1
  ∧ (∀ f, (to_file self f (run_calls calls d)).1 = (to_file self f d).1)
  ∧ (reference self (run_calls calls d)).1 = (reference self d).1.
Proof.
  intros Hex.
  destruct (existing_inv self d Hex) as (t & r & Ht & Hcol & Hrow & Hr & Hid).
  destruct (run_calls_rows calls d _ t Ht) as [rows Hrows].
  assert (Hrow' : row_of self (run_calls calls d) = row_of self d).
  { rewrite Hrow. unfold row_of in *. rewrite Hrows. rewrite Ht in Hrow.
    simpl in *. by apply find_app_Some. }
  split; [|split; [done|]].
  - unfold existing, _check_id, select_exists. rewrite Hrows.
    rewrite decide_False by apply insert_non_empty.
    rewrite decide_True; last first.
    { rewrite dom_singleton_L. unfold col_names in *. simpl.
      by apply singleton_subseteq_l. }
    simpl. rewrite existsb_app.
    replace (existsb _ (t_rows t)) with true; [done|].
    symmetry. apply existsb_exists. exists r.
    split; [by apply list_elem_of_In|]. by apply matches_singleton.
  - by apply (readers_congr self _ d _ t Hrows Ht).
Qed.

(** *** What [exists] answers *)

Lemma exists_inv (cls : param_class) (kwargs : gmap string value)
    (d d' : db) (b : bool) :
  exists_ cls kwargs d = (Return b, d') →
  d' = d
  ∧ ∃ t, d !! _table cls = Some t
       ∧ "param_set_name" ∈ col_names t
       ∧ "preprocessed_params_id" ∈ col_names t
       ∧ dom kwargs = expected_cols t
       ∧ kwargs ≠ ∅
       ∧ b = existsb (matches kwargs) (t_rows t).
Proof.
  intros Hex.
  assert (d' = d) as ->.
  { pose proof (readonly_exists cls kwargs d) as Hro. by rewrite Hex in Hro. }
  split; [done|]. unfold exists_ in Hex. unfold bind at 1 in Hex.
  destruct (_check_columns cls kwargs d) as [[[]|e] s] eqn:Hc; [|done].
  assert (s = d) as ->.
  { pose proof (readonly_check_columns cls kwargs d) as Hro.
    by rewrite Hc in Hro. }
  apply check_columns_inv in Hc as (t & Ht & Hn & Hk & Hdom).
  exists t. repeat (split; [done|]).
  unfold select_exists in Hex. rewrite Ht in Hex.
  destruct (decide (kwargs = ∅)); [done|].
  destruct (decide (dom kwargs ⊆ col_names t)); [|done].
  split; [done|]. congruence.
Qed.

(** [exists] answers true exactly when its keyword arguments pass the
    column check, name at least one column, and some row of the table
    holds, in each column named, the value given. *)
Theorem exists_true_iff (cls : param_class) (kwargs : gmap string value)
    (d : db) :
  exists_ cls kwargs d = (Return true, d)
  ↔ _check_columns cls kwargs d = (Return (), d)
    ∧ kwargs ≠ ∅
    ∧ ∃ t r, d !! _table cls = Some t ∧ r ∈ t_rows t
           ∧ ∀ c v, kwargs !! c = Some v → r !! c = Some v.
Proof.
  split.
  - intros (_ & t & Ht & Hn & Hk & Hdom & Hne & Hb)%exists_inv.
    split; [by apply (check_columns_ok _ _ _ t)|]. split; [done|].
    symmetry in Hb. apply existsb_exists in Hb as (r & Hr & Hm).
    exists t, r. split; [done|]. split; [by apply list_elem_of_In|].
    apply matches_spec in Hm. intros c v Hc.
    by apply (lookup_weaken kwargs r).
  - intros (Hc & Hne & t & r & Ht & Hr & Hall).
    apply check_columns_inv in Hc as (t' & Ht' & Hn & Hk & Hdom).
    assert (t' = t) as -> by congruence.
    rewrite (exists_run _ _ _ t) by done. do 2 f_equal.
    apply existsb_exists. exists r. split; [by apply list_elem_of_In|].
    apply matches_spec, map_subseteq_spec. exact Hall.
Qed.

(** A value-set [exists] has reported stays reported whatever calls
    follow. *)
Theorem exists_persists (cls : param_class) (kwargs : gmap string value)
    (calls : list call) (d : db) :
  exists_ cls kwargs d = (Return true, d) →
  exists_ cls kwargs (run_calls calls d) = (Return true, run_calls calls d).
Proof.
  intros (_ & t & Ht & Hn & Hk & Hdom & Hne & Hb)%exists_inv.
  destruct (run_calls_rows calls d _ t Ht) as [rows Hrows].
  rewrite (exists_run _ _ _ _ Hrows); [|done..].
  simpl. by rewrite existsb_app, <-Hb.
Qed.

(** *** [reference] and the key column of [to_str] *)

(** For an existing instance on a well-formed table with a [reference_id]
    column, [reference] returns the value its row holds there. *)
Theorem reference_spec (self : params) (d : db) (t : table) :
  d !! _table (cls_of self) = Some t →
  table_wf t →
  "reference_id" ∈ col_names t →
  existing self d →
  ∃ (r : gmap string value) (v : value),
    row_of self d = Some r
    ∧ r !! "reference_id" = Some v
    ∧ reference self d = (Return v, d).
Proof.
  intros Ht [_ Hrows] Href (t' & r & Ht' & Hcol & Hrow & Hr & _)%existing_inv.
  assert (t' = t) as -> by congruence.
  rewrite Forall_forall in Hrows.
  assert (is_Some (r !! "reference_id")) as [v Hv].
  { apply elem_of_dom. by rewrite (Hrows r Hr). }
  exists r, v. split; [done|]. split; [done|].
  unfold row_of in Hrow. rewrite Ht in Hrow. simpl in Hrow.
  unfold reference, bind, select_field. rewrite Ht.
  rewrite decide_True by done. rewrite Hrow. simpl. by rewrite Hv.
Qed.

Lemma list_remove_first_None {A} `{EqDecision A} (x : A) (l : list A) :
  x ∉ l → list_remove_first x l = None.
Proof.
  induction l as [|y l IH]; [done|].
  intros [Hne Hl]%not_elem_of_cons. simpl.
  rewrite decide_False by done. by rewrite IH.
Qed.

(** [to_str] looks for the id column under the type [bigint]: on a table
    that lists the id column under another type, or not at all, it raises
    the [ValueError] of [list.remove], whatever the instance. *)
Theorem to_str_key_not_bigint (self : params) (d : db) :
  (∀ t, d !! _table (cls_of self) = Some t →
        (_column_id (cls_of self), "bigint") ∉ t_cols t) →
  to_str self d = (Raise (ValueError NotInList), d).
Proof.
  intros Hno. unfold to_str. unfold bind at 1, get_table_cols_w_type.
  unfold bind at 1, list_remove.
  rewrite list_remove_first_None; [done|].
  destruct (d !! _table (cls_of self)) as [t|]; [by apply Hno|].
  apply not_elem_of_nil.
Qed.

(** *** Rendering a parameter set just created *)

Lemma find_app_None {A} (p : A → bool) (l k : list A) :
  existsb p l = false → find p (l ++ k) = find p k.
Proof.
  induction l as [|y l IH]; simpl; [done|].
  destruct (p y); [done|]. apply IH.
Qed.

Lemma flag_of_agree (r1 r2 : gmap string value) (col : string * string) :
  r1 !! col.1 = r2 !! col.1 → flag_of r1 col = flag_of r2 col.
Proof. unfold flag_of. by intros ->. Qed.

(** [to_str] of an existing instance, by the row it selects. *)
Lemma to_str_of_row (self : params) (d : db) (t : table) :
  d !! _table (cls_of self) = Some t →
  table_wf t →
  (_column_id (cls_of self), "bigint") ∈ t_cols t →
  existing self d →
  ∃ (r : gmap string value) (cols : list (string * string)),
    row_of self d = Some r
    ∧ to_str self d = (Return (join " " (concat (flag_of r <$> cols))), d)
    ∧ cols ≡ₚ filter (λ c, (c.1 ≠ _column_id (cls_of self))
                           ∧ (c.1 ∉ _ignore_cols (cls_of self))) (t_cols t)
    ∧ StronglySorted (λ a b, String.le a.1 b.1) cols.
Proof.
  intros Ht [Hnd Hrows] Hid (t' & r & Ht' & Hcol & Hrow & Hr & _)%existing_inv.
  assert (t' = t) as -> by congruence.
  set (cls := cls_of self) in *.
  set (removed := filter (λ c : string * string, c.1 ≠ _column_id cls) (t_cols t)).
  exists r, (filter (λ c, c.1 ∉ _ignore_cols cls) (sorted_pairs removed)).
  split; [done|]. split; [|split].
  - unfold to_str. fold cls. unfold bind at 1, get_table_cols_w_type.
    rewrite Ht. unfold bind at 1, list_remove.
    rewrite (list_remove_first_columns _ _ Hnd Hid). simpl. fold removed.
    unfold ret at 1. unfold bind at 1.
    rewrite (get_values_as_dict_run self d t r) by done.
    unfold bind. rewrite to_str_loop_run; [done|].
    intros c Hc. apply elem_of_dom.
    rewrite Forall_forall in Hrows. rewrite (Hrows r Hr).
    unfold sorted_pairs in Hc. rewrite merge_sort_Permutation in Hc.
    apply list_elem_of_filter in Hc as [_ Hc].
    apply elem_of_list_to_set. by apply list_elem_of_fmap_2.
  - unfold sorted_pairs. rewrite merge_sort_Permutation.
    unfold removed. rewrite list_filter_filter.
    erewrite list_filter_iff; [done|]. intros c. simpl. tauto.
  - apply StronglySorted_filter.
    apply (StronglySorted_weaken pair_le); [exact pair_le_fst|].
    apply StronglySorted_merge_sort; apply _.
Qed.

(** On a well-formed table keyed by [preprocessed_params_id], typed
    [bigint], for a class with that id column which ignores the name
    column: [create] with a new value-set returns a handle whose row is the
    row inserted, and [to_str] of that handle renders the values given to
    [create], and neither the name nor the key. *)
Theorem create_then_to_str (cls : param_class) (name : string)
    (kwargs : gmap string value) (d : db) (t : table) :
  d !! _table cls = Some t →
  table_wf t →
  t_key t = "preprocessed_params_id" →
  _column_id cls = "preprocessed_params_id" →
  ("preprocessed_params_id", "bigint") ∈ t_cols t →
  "param_set_name" ∈ col_names t →
  "param_set_name" ∈ _ignore_cols cls →
  dom kwargs = expected_cols t →
  kwargs ≠ ∅ →
  existsb (matches kwargs) (t_rows t) = false →
  ∃ (self : params) (d' : db) (cols : list (string * string)),
    create cls name kwargs d = (Return self, d')
    ∧ row_of self d' = Some (new_row t name kwargs)
    ∧ to_str self d'
      = (Return (join " " (concat (flag_of kwargs <$> cols))), d')
    ∧ cols ≡ₚ filter (λ c, (c.1 ≠ _column_id cls)
                           ∧ (c.1 ∉ _ignore_cols cls)) (t_cols t)
    ∧ StronglySorted (λ a b, String.le a.1 b.1) cols.
Proof.
  intros Ht Hwf Hkey Hcol Hbig Hn Hign Hdom Hne Hnew.
  assert (Hk : "preprocessed_params_id" ∈ col_names t).
  { apply elem_of_list_to_set.
    by apply (list_elem_of_fmap_2 fst _ ("preprocessed_params_id", "bigint")). }
  destruct (create_new cls name kwargs d t) as (Hc & Hid & Hex); try done.
  set (d' := <[_table cls := with_row t (new_row t name kwargs)]> d) in *.
  set (self := Params cls (VInt (fresh_key t))).
  assert (Ht' : d' !! _table cls = Some (with_row t (new_row t name kwargs))).
  { subst d'. by rewrite lookup_insert_eq. }
  assert (Hrow : row_of self d' = Some (new_row t name kwargs)).
  { unfold row_of. simpl. rewrite Ht'. simpl.
    rewrite find_app_None; last first.
    { rewrite Hcol, <-Hkey. apply fresh_key_fresh. }
    simpl. replace (matches _ _) with true; [done|].
    symmetry. by apply matches_singleton. }
  assert (Hwf' : table_wf (with_row t (new_row t name kwargs))).
  { destruct Hwf as [Hnd Hrows]. split; [done|].
    change (col_names (with_row t (new_row t name kwargs)))
      with (col_names t). simpl.
    apply Forall_app. split; [done|]. apply Forall_singleton.
    by apply new_row_dom. }
  assert (Hself : existing self d').
  { unfold existing, self. simpl. unfold _check_id, select_exists.
    rewrite Ht'. rewrite decide_False by apply insert_non_empty.
    rewrite decide_True; last first.
    { rewrite dom_singleton_L, Hcol.
      change (col_names (with_row t (new_row t name kwargs)))
        with (col_names t).
      by apply singleton_subseteq_l. }
    simpl. rewrite existsb_app. simpl.
    replace (matches _ (new_row t name kwargs)) with true.
    { by rewrite orb_true_r. }
    symmetry. by apply matches_singleton. }
  destruct (to_str_of_row self d' _ Ht' Hwf') as (r & cols & Hr & Hs & Hp & Hsorted).
  { simpl. by rewrite Hcol. }
  { done. }
  assert (r = new_row t name kwargs) as -> by congruence.
  exists self, d', cols. split; [done|]. split; [done|].
  split; [|split; [exact Hp|exact Hsorted]].
  rewrite Hs.
  enough (flag_of (new_row t name kwargs) <$> cols = flag_of kwargs <$> cols)
    as -> by done.
  apply Forall_fmap_ext, Forall_forall.
  intros c Hin. rewrite Hp in Hin.
  apply list_elem_of_filter in Hin as [[Hc1 Hc2] _].
  simpl in Hc1, Hc2. apply flag_of_agree. unfold new_row.
  rewrite Hkey, lookup_insert_ne; last first.
  { intros Heq. apply Hc1. by rewrite Hcol. }
  rewrite lookup_insert_ne; [done|].
  intros Heq. apply Hc2. by rewrite <-Heq.
Qed.

(** *** A table without parameter columns *)

(** On a table that has the key and the name and no other column, the
    only keyword arguments the column check lets through are none at all,
    and then the [WHERE] clause [exists] builds is empty and the database
    refuses the statement: neither [exists] nor [create] ever returns, and
    the database stays as it was. *)
Theorem exists_no_columns (cls : param_class) (name : string)
    (kwargs : gmap string value) (d : db) (t : table) :
  d !! _table cls = Some t →
  col_names t = {["param_set_name"; "preprocessed_params_id"]} →
  ∃ e, exists_ cls kwargs d = (Raise e, d)
     ∧ create cls name kwargs d = (Raise e, d)
     ∧ (kwargs = ∅ → e = DatabaseError "syntax error")
     ∧ (kwargs ≠ ∅ → e = ValueError (ExtraColumns (dom kwargs))).
Proof.
  intros Ht Hcols.
  assert (Hexp : expected_cols t = ∅).
  { unfold expected_cols. rewrite Hcols. set_solver. }
  assert (Hn : "param_set_name" ∈ col_names t) by (rewrite Hcols; set_solver).
  assert (Hk : "preprocessed_params_id" ∈ col_names t)
    by (rewrite Hcols; set_solver).
  destruct (decide (kwargs = ∅)) as [->|Hne].
  - exists (DatabaseError "syntax error").
    assert (Hc : _check_columns cls ∅ d = (Return (), d)).
    { apply (check_columns_ok _ _ _ t); try done.
      all: by rewrite dom_empty_L. }
    assert (He : exists_ cls ∅ d = (Raise (DatabaseError "syntax error"), d)).
    { unfold exists_. unfold bind at 1. rewrite Hc.
      unfold select_exists. by rewrite Ht, decide_True. }
    split; [done|]. split; [|done].
    unfold create. unfold bind at 1. rewrite Hc.
    unfold bind at 1. by rewrite He.
  - exists (ValueError (ExtraColumns (dom kwargs))).
    assert (Hc : _check_columns cls kwargs d
                 = (Raise (ValueError (ExtraColumns (dom kwargs))), d)).
    { rewrite check_columns_run, Ht, !decide_True by done.
      rewrite Hexp. rewrite decide_False; last first.
      { intros Hx. apply Hx. apply empty_difference_L. }
      rewrite difference_empty_L.
      rewrite decide_True; [done|]. by intros ?%dom_empty_inv_L. }
    split; [|split; [|done]].
    + unfold exists_. unfold bind at 1. by rewrite Hc.
    + unfold create. unfold bind at 1. by rewrite Hc.
Qed.

Lemma exists_no_columns_witness :
  (names_only_db !! _table Preprocessed454Params
   = Some (Table [("preprocessed_params_id", "bigint");
                  ("param_set_name", "character varying")]
             "preprocessed_params_id" [])
   ∧ col_names (Table [("preprocessed_params_id", "bigint");
                       ("param_set_name", "character varying")]
                  "preprocessed_params_id" [])
     = {["param_set_name"; "preprocessed_params_id"]})
  ∧ ∃ e, exists_ Preprocessed454Params ∅ names_only_db = (Raise e, names_only_db)
       ∧ create Preprocessed454Params "Defaults" ∅ names_only_db
         = (Raise e, names_only_db)
       ∧ ((∅ : gmap string value) = ∅ → e = DatabaseError "syntax error")
       ∧ ((∅ : gmap string value) ≠ ∅ → e = ValueError (ExtraColumns (dom (∅ : gmap string value)))).
Proof.
  assert (H1 : names_only_db !! _table Preprocessed454Params
   = Some (Table [("preprocessed_params_id", "bigint");
                  ("param_set_name", "character varying")]
             "preprocessed_params_id" [])) by compute_done.
  assert (H2 : col_names (Table [("preprocessed_params_id", "bigint");
                       ("param_set_name", "character varying")]
                  "preprocessed_params_id" [])
     = {["param_set_name"; "preprocessed_params_id"]}) by compute_done.
  split; [exact (conj H1 H2)|].
  exact (exists_no_columns Preprocessed454Params "Defaults" ∅ names_only_db
           _ H1 H2).
Defined.

(** *** The statements above on the example database *)

Lemma check_columns_missing_first_witness :
  (example_db !! _table PreprocessedIlluminaParams = Some illumina_table
   ∧ "param_set_name" ∈ col_names illumina_table
   ∧ "preprocessed_params_id" ∈ col_names illumina_table
   ∧ "rev_comp" ∈ expected_cols illumina_table
   ∧ "rev_comp" ∉ dom (<["trim" := VInt 1]> (delete "rev_comp" illumina_defaults)))
  ∧ _check_columns PreprocessedIlluminaParams
      (<["trim" := VInt 1]> (delete "rev_comp" illumina_defaults)) example_db
    = (Raise (ValueError (MissingColumns
         (expected_cols illumina_table
          ∖ dom (<["trim" := VInt 1]> (delete "rev_comp" illumina_defaults))))),
       example_db).
Proof.
  assert (H1 : example_db !! _table PreprocessedIlluminaParams
               = Some illumina_table) by compute_done.
  assert (H2 : "param_set_name" ∈ col_names illumina_table) by compute_done.
  assert (H3 : "preprocessed_params_id" ∈ col_names illumina_table)
    by compute_done.
  assert (H4 : "rev_comp" ∈ expected_cols illumina_table) by compute_done.
  assert (H5 : "rev_comp" ∉ dom (<["trim" := VInt 1]>
                                   (delete "rev_comp" illumina_defaults)))
    by compute_done.
  split; [exact (conj H1 (conj H2 (conj H3 (conj H4 H5))))|].
  exact (check_columns_missing_first PreprocessedIlluminaParams _ example_db
           illumina_table "rev_comp" H1 H2 H3 H4 H5).
Defined.

Lemma create_twice_witness :
  create PreprocessedIlluminaParams "Other" illumina_other example_db
  = (Return (Params PreprocessedIlluminaParams (VInt 2)),
     <["preprocessed_sequence_illumina_params" :=
         with_row illumina_table
           (new_row illumina_table "Other" illumina_other)]> example_db)
  ∧ create PreprocessedIlluminaParams "Again" illumina_other
      (<["preprocessed_sequence_illumina_params" :=
           with_row illumina_table
             (new_row illumina_table "Other" illumina_other)]> example_db)
    = (Raise (QiitaDBDuplicateError (__name__ PreprocessedIlluminaParams)
                illumina_other),
       <["preprocessed_sequence_illumina_params" :=
           with_row illumina_table
             (new_row illumina_table "Other" illumina_other)]> example_db).
Proof.
  assert (H : create PreprocessedIlluminaParams "Other" illumina_other example_db
    = (Return (Params PreprocessedIlluminaParams (VInt 2)),
       <["preprocessed_sequence_illumina_params" :=
           with_row illumina_table
             (new_row illumina_table "Other" illumina_other)]> example_db))
    by (vm_compute; reflexivity).
  split; [exact H|].
  exact (create_twice PreprocessedIlluminaParams "Other" "Again" illumina_other
           example_db _ _ H).
Defined.

Lemma run_calls_wf_witness :
  db_wf example_db ∧ db_wf (run_calls example_calls example_db).
Proof.
  assert (H : db_wf example_db).
  { unfold db_wf, example_db.
    apply map_Forall_insert_2; [|apply map_Forall_singleton];
      split; compute_done. }
  split; [exact H|].
  exact (run_calls_wf example_calls example_db H).
Defined.

Lemma existing_persists_witness :
  existing (Params PreprocessedIlluminaParams (VInt 1)) example_db
  ∧ (existing (Params PreprocessedIlluminaParams (VInt 1))
       (run_calls example_calls example_db)
     ∧ row_of (Params PreprocessedIlluminaParams (VInt 1))
         (run_calls example_calls example_db)
       = row_of (Params PreprocessedIlluminaParams (VInt 1)) example_db
     ∧ (to_str (Params PreprocessedIlluminaParams (VInt 1))
          (run_calls example_calls example_db)).1
       = (to_str (Params PreprocessedIlluminaParams (VInt 1)) example_db).1
     ∧ (∀ f, (to_file (Params PreprocessedIlluminaParams (VInt 1)) f
                (run_calls example_calls example_db)).1
             = (to_file (Params PreprocessedIlluminaParams (VInt 1)) f
                  example_db).1)
     ∧ (reference (Params PreprocessedIlluminaParams (VInt 1))
          (run_calls example_calls example_db)).1
       = (reference (Params PreprocessedIlluminaParams (VInt 1)) example_db).1).
Proof.
  assert (H : existing (Params PreprocessedIlluminaParams (VInt 1)) example_db)
    by compute_done.
  split; [exact H|].
  exact (existing_persists (Params PreprocessedIlluminaParams (VInt 1))
           example_calls example_db H).
Defined.

Lemma exists_persists_witness :
  exists_ PreprocessedIlluminaParams illumina_defaults example_db
  = (Return true, example_db)
  ∧ exists_ PreprocessedIlluminaParams illumina_defaults
      (run_calls example_calls example_db)
    = (Return true, run_calls example_calls example_db).
Proof.
  assert (H : exists_ PreprocessedIlluminaParams illumina_defaults example_db
              = (Return true, example_db)) by compute_done.
  split; [exact H|].
  exact (exists_persists PreprocessedIlluminaParams illumina_defaults
           example_calls example_db H).
Defined.

Lemma reference_spec_witness :
  (example_db !! _table (cls_of (Params ProcessedSortmernaParams (VInt 1)))
   = Some sortmerna_table
   ∧ table_wf sortmerna_table
   ∧ "reference_id" ∈ col_names sortmerna_table
   ∧ existing (Params ProcessedSortmernaParams (VInt 1)) example_db)
  ∧ ∃ (r : gmap string value) (v : value),
      row_of (Params ProcessedSortmernaParams (VInt 1)) example_db = Some r
      ∧ r !! "reference_id" = Some v
      ∧ reference (Params ProcessedSortmernaParams (VInt 1)) example_db
        = (Return v, example_db).
Proof.
  assert (H1 : example_db
                 !! _table (cls_of (Params ProcessedSortmernaParams (VInt 1)))
               = Some sortmerna_table) by compute_done.
  assert (H2 : table_wf sortmerna_table) by (split; compute_done).
  assert (H3 : "reference_id" ∈ col_names sortmerna_table) by compute_done.
  assert (H4 : existing (Params ProcessedSortmernaParams (VInt 1)) example_db)
    by compute_done.
  split; [exact (conj H1 (conj H2 (conj H3 H4)))|].
  exact (reference_spec (Params ProcessedSortmernaParams (VInt 1)) example_db
           sortmerna_table H1 H2 H3 H4).
Defined.

Lemma to_str_key_not_bigint_witness :
  (∀ t, integer_key_db
          !! _table (cls_of (Params ProcessedSortmernaParams (VInt 1)))
        = Some t →
        (_column_id (cls_of (Params ProcessedSortmernaParams (VInt 1))), "bigint")
        ∉ t_cols t)
  ∧ to_str (Params ProcessedSortmernaParams (VInt 1)) integer_key_db
    = (Raise (ValueError NotInList), integer_key_db).
Proof.
  assert (H : ∀ t, integer_key_db
          !! _table (cls_of (Params ProcessedSortmernaParams (VInt 1)))
        = Some t →
        (_column_id (cls_of (Params ProcessedSortmernaParams (VInt 1))), "bigint")
        ∉ t_cols t).
  { intros t Ht. vm_compute in Ht. injection Ht as <-. compute_done. }
  split; [exact H|].
  exact (to_str_key_not_bigint (Params ProcessedSortmernaParams (VInt 1))
           integer_key_db H).
Defined.

Lemma create_then_to_str_witness :
  (example_db !! _table PreprocessedIlluminaParams = Some illumina_table
   ∧ table_wf illumina_table
   ∧ t_key illumina_table = "preprocessed_params_id"
   ∧ _column_id PreprocessedIlluminaParams = "preprocessed_params_id"
   ∧ ("preprocessed_params_id", "bigint") ∈ t_cols illumina_table
   ∧ "param_set_name" ∈ col_names illumina_table
   ∧ "param_set_name" ∈ _ignore_cols PreprocessedIlluminaParams
   ∧ dom illumina_other = expected_cols illumina_table
   ∧ illumina_other ≠ ∅
   ∧ existsb (matches illumina_other) (t_rows illumina_table) = false)
  ∧ ∃ (self : params) (d' : db) (cols : list (string * string)),
      create PreprocessedIlluminaParams "Other" illumina_other example_db
      = (Return self, d')
      ∧ row_of self d' = Some (new_row illumina_table "Other" illumina_other)
      ∧ to_str self d'
        = (Return (join " " (concat (flag_of illumina_other <$> cols))), d')
      ∧ cols ≡ₚ filter (λ c, (c.1 ≠ _column_id PreprocessedIlluminaParams)
                             ∧ (c.1 ∉ _ignore_cols PreprocessedIlluminaParams))
                  (t_cols illumina_table)
      ∧ StronglySorted (λ a b, String.le a.1 b.1) cols.
Proof.
  assert (H1 : example_db !! _table PreprocessedIlluminaParams
               = Some illumina_table) by compute_done.
  assert (H2 : table_wf illumina_table) by (split; compute_done).
  assert (H3 : t_key illumina_table = "preprocessed_params_id") by compute_done.
  assert (H4 : _column_id PreprocessedIlluminaParams = "preprocessed_params_id")
    by compute_done.
  assert (H5 : ("preprocessed_params_id", "bigint") ∈ t_cols illumina_table)
    by compute_done.
  assert (H6 : "param_set_name" ∈ col_names illumina_table) by compute_done.
  assert (H7 : "param_set_name" ∈ _ignore_cols PreprocessedIlluminaParams)
    by compute_done.
  assert (H8 : dom illumina_other = expected_cols illumina_table)
    by compute_done.
  assert (H9 : illumina_other ≠ ∅) by compute_done.
  assert (H10 : existsb (matches illumina_other) (t_rows illumina_table) = false)
    by compute_done.
  split.
  { exact (conj H1 (conj H2 (conj H3 (conj H4 (conj H5 (conj H6 (conj H7
             (conj H8 (conj H9 H10))))))))). }
  exact (create_then_to_str PreprocessedIlluminaParams "Other" illumina_other
           example_db illumina_table H1 H2 H3 H4 H5 H6 H7 H8 H9 H10).
Defined.

End ParametersMore.

(** ** More on the raw-data tabs *)

Module RawDataTabMore.
Import Facts.

(** *** The filepath types *)

Lemma split_once_raw (k : string) :
  String.prefix "raw_" k = true →
  ∃ rest, k = "raw_" +:+ rest ∧ split_once UNDERSCORE k = ["raw"; rest].
Proof.
  intros Hk%String.prefix_correct.
  destruct k as [|a1 [|a2 [|a3 [|a4 rest]]]]; simpl in Hk; try discriminate.
  injection Hk as -> -> -> -> _.
  exists rest. split; reflexivity.
Qed.

Lemma replace_char_no_old (old new : Ascii.ascii) (s : string) :
  old ≠ new → old ∉ String.list_ascii_of_string (replace_char old new s).
Proof.
  intros Hne. induction s as [|a s IH]; simpl; [apply not_elem_of_nil|].
  apply not_elem_of_cons. split; [|done].
  destruct (decide (a = old)); congruence.
Qed.

(** The comprehension that builds the filepath types never raises: the
    filter lets through only keys that start with "raw_", which do have an
    underscore to split at.  It lists, in the order of the keys, what
    follows "raw_" in each such key, underscores turned into spaces; no
    entry keeps an underscore. *)
Theorem filepath_types_spec (keys : list string) :
  ∃ fts : list string,
    filepath_types keys = Got fts
    ∧ Forall2
        (λ k x, ∃ rest, k = "raw_" +:+ rest
                        ∧ x = replace_char UNDERSCORE SPACE rest)
        (filter (λ k, String.prefix "raw_" k = true) keys) fts
    ∧ Forall (λ x, UNDERSCORE ∉ String.list_ascii_of_string x) fts.
Proof.
  induction keys as [|k keys (fts & Hrun & Hall & Hno)].
  { exists []. split; [done|]. split; constructor. }
  destruct (String.prefix "raw_" k) eqn:Hk.
  - rewrite filter_cons_True by done. simpl. rewrite Hk.
    destruct (split_once_raw k Hk) as (rest & -> & Hsplit).
    rewrite Hsplit, Hrun. simpl.
    exists (replace_char UNDERSCORE SPACE rest :: fts).
    split; [done|]. split.
    + constructor; [by exists rest|done].
    + constructor; [|done]. by apply replace_char_no_old.
  - rewrite filter_cons_False by (by rewrite Hk). simpl. rewrite Hk.
    by exists fts.
Qed.

(** *** Raw data of the user's other studies *)

Section other_studies.
Variable L : data_layer.

Lemma title_of_None (k : Z) : title_of L k = None ↔ RawData_studies L k = [].
Proof.
  unfold title_of. rewrite fmap_None. apply last_None.
Qed.

Lemma other_studies_inner_Got (rdids : list Z) (d m : gmap Z string) :
  other_studies_inner L rdids d = Got m →
  ∀ k, (k ∈ rdids → m !! k = title_of L k ∧ is_Some (title_of L k))
       ∧ (k ∉ rdids → m !! k = d !! k).
Proof.
  revert d. induction rdids as [|r rdids IH]; intros d; simpl.
  { intros [= <-] k. split; [by intros ?%not_elem_of_nil|done]. }
  unfold getlast. destruct (last (RawData_studies L r)) as [sid|] eqn:Hlast;
    [|done].
  intros Hrun k. destruct (IH _ Hrun k) as [Hin Hout]. split.
  - intros Hk. destruct (decide (k ∈ rdids)) as [|Hn]; [by apply Hin|].
    apply elem_of_cons in Hk as [->|]; [|done].
    rewrite (Hout Hn), lookup_insert_eq. unfold title_of. rewrite Hlast.
    split; [done|by eexists].
  - intros [Hne Hn]%not_elem_of_cons.
    by rewrite (Hout Hn), lookup_insert_ne.
Qed.

Lemma other_studies_inner_IndexError (rdids : list Z) (d : gmap Z string) :
  other_studies_inner L rdids d = IndexError
  ↔ ∃ k, k ∈ rdids ∧ RawData_studies L k = [].
Proof.
  revert d. induction rdids as [|r rdids IH]; intros d; simpl.
  { split; [done|]. by intros (k & ?%not_elem_of_nil & _). }
  unfold getlast. destruct (last (RawData_studies L r)) as [sid|] eqn:Hlast.
  - rewrite IH. split.
    + intros (k & Hk & Hempty). exists k. split; [by right|done].
    + intros (k & [->|Hk]%elem_of_cons & Hempty); [|by exists k].
      by rewrite Hempty in Hlast.
  - split; [|done]. intros _. exists r. split; [left|by apply last_None].
Qed.

Lemma reachable_cons (sid : Z) (user_studies : list Z) (study_id k : Z) :
  reachable L (sid :: user_studies) study_id k
  ↔ (sid ≠ study_id ∧ k ∈ Study_raw_data L sid)
    ∨ reachable L user_studies study_id k.
Proof. unfold reachable. apply Exists_cons. Qed.

Lemma reachable_nil (study_id k : Z) : ¬ reachable L [] study_id k.
Proof. unfold reachable. by intros ?%Exists_nil. Qed.

Lemma reachable_exists (user_studies : list Z) (study_id k : Z) :
  reachable L user_studies study_id k
  ↔ ∃ sid, sid ∈ user_studies ∧ sid ≠ study_id ∧ k ∈ Study_raw_data L sid.
Proof. unfold reachable. apply Exists_exists. Qed.

Lemma other_studies_outer_Got (user_studies : list Z) (study_id : Z)
    (d m : gmap Z string) :
  other_studies_outer L user_studies study_id d = Got m →
  ∀ k, (reachable L user_studies study_id k
        → m !! k = title_of L k ∧ is_Some (title_of L k))
       ∧ (¬ reachable L user_studies study_id k → m !! k = d !! k).
Proof.
  revert d. induction user_studies as [|sid us IH]; intros d; simpl.
  { intros [= <-] k. split; [|done]. by intros ?%reachable_nil. }
  destruct (decide (sid = study_id)) as [->|Hne].
  { intros Hrun k. destruct (IH _ Hrun k) as [Hin Hout].
    rewrite reachable_cons. split.
    - intros [[? _]|?]; [done|by apply Hin].
    - intros Hn. apply Hout. tauto. }
  destruct (other_studies_inner L (Study_raw_data L sid) d) as [d'|] eqn:Hinner;
    [|done].
  intros Hrun k. destruct (IH _ Hrun k) as [Hin Hout].
  destruct (other_studies_inner_Got _ _ _ Hinner k) as [Hin' Hout'].
  rewrite reachable_cons. split.
  - intros Hk.
    destruct (decide (reachable L us study_id k)) as [|Hn]; [by apply Hin|].
    destruct Hk as [[_ Hk]|]; [|done].
    rewrite (Hout Hn). by apply Hin'.
  - intros Hn. rewrite Hout by tauto. apply Hout'. tauto.
Qed.

Lemma other_studies_outer_IndexError (user_studies : list Z) (study_id : Z)
    (d : gmap Z string) :
  other_studies_outer L user_studies study_id d = IndexError
  ↔ ∃ k, reachable L user_studies study_id k ∧ RawData_studies L k = [].
Proof.
  revert d. induction user_studies as [|sid us IH]; intros d; simpl.
  { split; [done|]. by intros (k & ?%reachable_nil & _). }
  setoid_rewrite reachable_cons.
  destruct (decide (sid = study_id)) as [->|Hne].
  { rewrite IH. split.
    - intros (k & Hk & He). exists k. split; [by right|done].
    - intros (k & [[? _]|Hk] & He); [done|by exists k]. }
  destruct (other_studies_inner L (Study_raw_data L sid) d) as [d'|] eqn:Hinner.
  - rewrite IH. split.
    + intros (k & Hk & He). exists k. split; [by right|done].
    + intros (k & [[_ Hk]|Hk] & He); [|by exists k].
      assert (other_studies_inner L (Study_raw_data L sid) d = IndexError)
        as Herr by (apply other_studies_inner_IndexError; by exists k).
      by rewrite Herr in Hinner.
  - split; [|done]. intros _.
    apply other_studies_inner_IndexError in Hinner as (k & Hk & He).
    exists k. split; [by left|done].
Qed.

(** [get_raw_data_from_other_studies] raises the [IndexError] of
    [studies[-1]] exactly when a raw data of one of the user's other studies
    has no study on record.  Otherwise its dict has a key for exactly the
    raw data of the user's studies other than the current one, each under
    the title of the last study of that raw data; a raw data the current
    study shares with another of the user's studies is among them. *)
Theorem get_raw_data_from_other_studies_spec (user_studies : list Z)
    (study_id : Z) :
  (get_raw_data_from_other_studies L user_studies study_id = IndexError
   ↔ ∃ k, reachable L user_studies study_id k ∧ RawData_studies L k = [])
  ∧ ∀ m, get_raw_data_from_other_studies L user_studies study_id = Got m →
      ∀ k title,
        m !! k = Some title
        ↔ reachable L user_studies study_id k
          ∧ ∃ sid, last (RawData_studies L k) = Some sid
                   ∧ title = Study_title L sid.
Proof.
  split; [apply other_studies_outer_IndexError|].
  intros m Hrun k title.
  destruct (other_studies_outer_Got _ _ _ _ Hrun k) as [Hin Hout].
  destruct (decide (reachable L user_studies study_id k)) as [Hk|Hk].
  - destruct (Hin Hk) as [-> _]. unfold title_of. rewrite fmap_Some.
    split.
    + intros (sid & ? & ?). split; [done|by exists sid].
    + intros (_ & sid & ? & ?). by exists sid.
  - rewrite (Hout Hk), lookup_empty. split; [done|tauto].
Qed.

(** [user.user_studies] comes in no particular order, and the order does
    not matter: two listings of the same studies give the same outcome. *)
Theorem get_raw_data_from_other_studies_order (us1 us2 : list Z)
    (study_id : Z) :
  us1 ≡ₚ us2 →
  get_raw_data_from_other_studies L us1 study_id
  = get_raw_data_from_other_studies L us2 study_id.
Proof.
  intros Hperm.
  assert (Hreach : ∀ k, reachable L us1 study_id k ↔ reachable L us2 study_id k).
  { intros k. rewrite !reachable_exists. by setoid_rewrite Hperm. }
  unfold get_raw_data_from_other_studies.
  pose proof (other_studies_outer_IndexError us1 study_id ∅) as He1.
  pose proof (other_studies_outer_IndexError us2 study_id ∅) as He2.
  destruct (other_studies_outer L us1 study_id ∅) as [m1|] eqn:H1,
    (other_studies_outer L us2 study_id ∅) as [m2|] eqn:H2.
  - f_equal. apply map_eq. intros k.
    destruct (other_studies_outer_Got _ _ _ _ H1 k) as [Hin1 Hout1],
      (other_studies_outer_Got _ _ _ _ H2 k) as [Hin2 Hout2].
    destruct (decide (reachable L us1 study_id k)) as [Hk|Hk].
    + destruct (Hin1 Hk) as [-> _].
      destruct (Hin2 (proj1 (Hreach k) Hk)) as [-> _]. done.
    + rewrite (Hout1 Hk), Hout2; [done|]. by rewrite <-Hreach.
  - destruct (proj1 He2 eq_refl) as (k & Hk & He).
    assert (Got m1 = IndexError); [|done].
    apply He1. exists k. by rewrite Hreach.
  - destruct (proj1 He1 eq_refl) as (k & Hk & He).
    assert (Got m2 = IndexError); [|done].
    apply He2. exists k. by rewrite <-Hreach.
  - done.
Qed.

End other_studies.

(** *** The link controls agree *)

(** The unlink button is never shown while the link button is disabled,
    nor for raw data that cannot be edited; and the link message is empty
    exactly for a settled status, one that is neither "linking" nor
    "unlinking" and does not start with "failed". *)
Theorem render_link_consistency {F : Type} (i : editor_inputs F) :
  (is_true (show_unlink_btn (render i)) = true
   → disable_link_btn (render i) = false ∧ is_editable (render i) = true)
  ∧ (link_msg (render i) = ""
     ↔ raw_data_link_filepaths_status i ≠ "linking"
       ∧ raw_data_link_filepaths_status i ≠ "unlinking"
       ∧ String.prefix "failed" (raw_data_link_filepaths_status i) = false).
Proof.
  unfold render.
  destruct (decide (raw_data_link_filepaths_status i = "linking")) as [Hl|Hl].
  { simpl. split; [discriminate|]. split; [discriminate|tauto]. }
  destruct (decide (raw_data_link_filepaths_status i = "unlinking")) as [Hu|Hu].
  { simpl. split; [discriminate|]. split; [discriminate|tauto]. }
  simpl. split.
  - intros [He _]%RawDataTabSpec.is_true_py_and. by split.
  - destruct (String.prefix "failed" _); simpl.
    + split; [discriminate|]. intros (_ & _ & ?). discriminate.
    + by split.
Qed.

Lemma get_raw_data_from_other_studies_order_witness :
  [1; 2; 3]%Z ≡ₚ [3; 1; 2]%Z
  ∧ get_raw_data_from_other_studies example_layer [1; 2; 3]%Z 1%Z
    = get_raw_data_from_other_studies example_layer [3; 1; 2]%Z 1%Z.
Proof.
  assert (H : [1; 2; 3]%Z ≡ₚ [3; 1; 2]%Z).
  { symmetry. apply (Permutation_cons_append [1; 2]%Z 3%Z). }
  split; [exact H|].
  exact (get_raw_data_from_other_studies_order example_layer _ _ 1%Z H).
Defined.

End RawDataTabMore.
